(** * Template setup script and example validation: a shallow embedding

    Sources embedded here:
    - [scripts/setup.py]: [get_user_input], [replace_in_file],
      [setup_project], [main];
    - [src/example/types.py] and [src/example/validation.py]:
      [Block], [validate_block_gas].

    Python [str] values are sequences of Unicode code points and are
    modelled as [list N]; the file system, the terminal and the raised
    exceptions are threaded through a small state-and-exception monad. *)

From Stdlib Require Import ZArith NArith List Ascii String DecimalString.
From stdpp Require Import gmap strings list fin_maps.

Set Default Proof Using "Type".

(** ** Python strings *)

Module PyStr.

(** A [str] is a list of code points. *)
Abbreviation str := (list N).

(** An ASCII literal of the source, as code points. *)
Definition lit (s : string) : str :=
  List.map N_of_ascii (list_ascii_of_string s).
Arguments lit s%_string.

(** [s.startswith(p)]. *)
Fixpoint is_prefix (p s : str) : bool :=
  match p, s with
  | [], _ => true
  | _ :: _, [] => false
  | a :: p', b :: s' => N.eqb a b && is_prefix p' s'
  end.

(** [sub in s]: some suffix of [s] starts with [sub]. *)
Fixpoint contains (sub s : str) : bool :=
  is_prefix sub s ||
  match s with
  | [] => false
  | _ :: t => contains sub t
  end.

(** The scan of [str.replace] for a non-empty [old]: occurrences are
    found left to right and do not overlap.  [skip] counts the
    characters of the occurrence just replaced that are still to be
    dropped. *)
Fixpoint replace_scan (old new : str) (skip : nat) (s : str) : str :=
  match s with
  | [] => []
  | c :: t =>
      match skip with
      | S k => replace_scan old new k t
      | O =>
          if is_prefix old s
          then new ++ replace_scan old new (length old - 1) t
          else c :: replace_scan old new 0 t
      end
  end.

(** [s.replace(old, new)].  With an empty [old], Python inserts [new]
    before every character and at the end. *)
Definition replace (s old new : str) : str :=
  match old with
  | [] => new ++ flat_map (fun c => c :: new) s
  | _ :: _ => replace_scan old new 0 s
  end.

Local Open Scope N_scope.

(** Whitespace as [str.strip()] sees it ([str.isspace] per character). *)
Definition isspace (c : N) : bool :=
  ((0x09 <=? c) && (c <=? 0x0D)) || ((0x1C <=? c) && (c <=? 0x20))
  || (c =? 0x85) || (c =? 0xA0) || (c =? 0x1680)
  || ((0x2000 <=? c) && (c <=? 0x200A))
  || (c =? 0x2028) || (c =? 0x2029) || (c =? 0x202F)
  || (c =? 0x205F) || (c =? 0x3000).

Fixpoint lstrip (s : str) : str :=
  match s with
  | [] => []
  | c :: t => if isspace c then lstrip t else s
  end.

Definition rstrip (s : str) : str := rev (lstrip (rev s)).

(** [s.strip()]. *)
Definition strip (s : str) : str := rstrip (lstrip s).

(** Lowercase mapping of one code point, as [str.lower()] applies it.
    The table holds the Unicode entries for Basic Latin and Latin-1 and
    three entries outside them: U+0130 (capital I with dot above, which
    lowercases to two code points), U+212A (Kelvin sign, which
    lowercases to ASCII [k]) and U+212B (Angstrom sign).  Every other
    code point is left as it is here; the statements below about
    non-ASCII text use the listed entries only. *)
Definition lower_cp (c : N) : str :=
  if (0x41 <=? c) && (c <=? 0x5A) then [c + 32]
  else if (0xC0 <=? c) && (c <=? 0xDE) && negb (c =? 0xD7) then [c + 32]
  else if c =? 0x130 then [0x69; 0x307]
  else if c =? 0x212A then [0x6B]
  else if c =? 0x212B then [0xE5]
  else [c].

(** [s.lower()]. *)
Definition lower (s : str) : str := flat_map lower_cp s.

(** Membership in the character class [[a-zA-Z0-9_-]]. *)
Definition in_class (c : N) : bool :=
  ((0x61 <=? c) && (c <=? 0x7A)) || ((0x41 <=? c) && (c <=? 0x5A))
  || ((0x30 <=? c) && (c <=? 0x39)) || (c =? 0x5F) || (c =? 0x2D).

(** [re.sub(r'[^a-zA-Z0-9_-]', repl, s)]: the pattern matches exactly
    one character, so every character outside the class is replaced
    by [repl] and the others are kept. *)
Definition re_sub_not_in_class (repl s : str) : str :=
  flat_map (fun c => if in_class c then [c] else repl) s.

(** [str(n)] for a non-negative integer. *)
Definition str_of_N (n : N) : str :=
  lit (NilZero.string_of_uint (N.to_uint n)).

(** [x or d] on strings: the empty string is falsy. *)
Definition py_or (x d : str) : str :=
  match x with
  | [] => d
  | _ :: _ => x
  end.

(** [x in xs] on a list of strings. *)
Definition in_list (x : str) (xs : list str) : bool :=
  existsb (fun y => bool_decide (x = y)) xs.

Local Close Scope N_scope.

End PyStr.
Import PyStr.

(** ** The world the script runs in *)

(** What is at a path.  [Node data writable]: [data] is the text the
    stored bytes decode to, line ends as stored, and is [None] when
    reading raises (a directory, bytes that do not decode, no read
    permission); [writable] is [false] when opening the path for
    writing raises, in which case nothing is written.  [NoAccess]: the
    path cannot even be examined, as below a directory without search
    permission, so that [Path.exists()] raises [PermissionError]. *)
Inductive node :=
| Node (data : option str) (writable : bool)
| NoAccess.

(** One answer at the terminal: a line, or Ctrl-C at the prompt.  When
    no answer is left, standard input is at its end. *)
Inductive event :=
| Line (s : str)
| CtrlC.

(** The exceptions the script can meet.  [IOFailure] stands for the
    [OSError] and [UnicodeError] family raised by file access. *)
Inductive exn :=
| KeyboardInterrupt
| EOFError
| IOFailure
| KeyError (k : string)
| SystemExit (code : Z).

(** [isinstance(e, Exception)]: [KeyboardInterrupt] and [SystemExit]
    derive from [BaseException] only. *)
Definition is_Exception (e : exn) : bool :=
  match e with
  | KeyboardInterrupt | SystemExit _ => false
  | EOFError | IOFailure | KeyError _ => true
  end.

(** What the script writes to the terminal, one constructor per
    message ([print] calls that belong together count as one) and per
    [input] prompt. *)
Inductive msg :=
| Welcome
| Prompt (label : string) (default : str)
| Updated (path : string)
| ErrorUpdating (path : string) (e : exn)
| FileNotFound (path : string)
| SetupComplete (project_name : str)
| NotInProjectRoot
| AlreadyConfigured
| ConfigurationSummary (config : gmap string str)
| ConfirmPrompt
| SetupCancelled
| ErrorOccurred (e : exn).

Record world := World {
  fs : gmap string node;      (* files below the working directory *)
  cwd_name : str;             (* Path.cwd().name *)
  now_year : N;               (* datetime.now().year *)
  stdin : list event;
  stdout : list msg
}.

Definition set_fs (f : gmap string node) (w : world) : world :=
  World f (cwd_name w) (now_year w) (stdin w) (stdout w).
Definition set_stdin (i : list event) (w : world) : world :=
  World (fs w) (cwd_name w) (now_year w) i (stdout w).
Definition emit (m : msg) (w : world) : world :=
  World (fs w) (cwd_name w) (now_year w) (stdin w) (stdout w ++ [m]).

(** ** State and exceptions *)

Inductive result (A : Type) :=
| Ok (a : A)
| Raise (e : exn).
Arguments Ok {A} a.
Arguments Raise {A} e.

Definition M (A : Type) : Type := world -> result A * world.

Definition ret {A} (a : A) : M A := fun w => (Ok a, w).

Definition bind {A B} (m : M A) (k : A -> M B) : M B := fun w =>
  match m w with
  | (Ok a, w') => k a w'
  | (Raise e, w') => (Raise e, w')
  end.

Definition raise {A} (e : exn) : M A := fun w => (Raise e, w).

(** [try: body except <handler>]: [handler e] is [Some h] when an
    [except] clause takes [e]. *)
Definition try_except {A} (body : M A) (handler : exn -> option (M A)) : M A :=
  fun w =>
    match body w with
    | (Ok a, w') => (Ok a, w')
    | (Raise e, w') =>
        match handler e with
        | Some h => h w'
        | None => (Raise e, w')
        end
    end.

Declare Scope py_scope.
Delimit Scope py_scope with py.
Notation "x <- m ;; k" := (bind m (fun x => k))
  (at level 100, m at next level, right associativity) : py_scope.
Notation "m ;;; k" := (bind m (fun _ => k))
  (at level 100, right associativity) : py_scope.
Local Open Scope py_scope.

(** [for x in xs: body x]. *)
Fixpoint for_each {A} (xs : list A) (body : A -> M unit) : M unit :=
  match xs with
  | [] => ret tt
  | x :: rest => body x ;;; for_each rest body
  end.

(** ** Built-ins and library calls *)

(** [print(...)]; writing to the terminal is taken to succeed. *)
Definition print (m : msg) : M unit := fun w => (Ok tt, emit m w).

(** [input(prompt)]: writes the prompt, then reads one answer. *)
Definition input (prompt : msg) : M str := fun w =>
  let w' := emit prompt w in
  match stdin w' with
  | [] => (Raise EOFError, w')
  | Line s :: rest => (Ok s, set_stdin rest w')
  | CtrlC :: rest => (Raise KeyboardInterrupt, set_stdin rest w')
  end.

Definition sys_exit {A} (code : Z) : M A := raise (SystemExit code).

(** The code points UTF-8 encodes: all but the surrogates. *)
Definition encodable_cp (c : N) : bool :=
  ((c <? 0xD800) || ((0xDFFF <? c) && (c <? 0x110000)))%N.

(** [s.encode('utf-8')] does not raise. *)
Definition encodable (s : str) : bool := forallb encodable_cp s.

(** Reading in text mode with universal newlines: CR LF and a lone CR
    both arrive as LF.  [after_cr] tells that the character before was
    a CR, whose LF has been given already. *)
Fixpoint newlines_scan (after_cr : bool) (s : str) : str :=
  match s with
  | [] => []
  | c :: t =>
      if (c =? 13)%N then 10%N :: newlines_scan true t
      else if (c =? 10)%N && after_cr then newlines_scan false t
      else c :: newlines_scan false t
  end.

Definition universal_newlines (s : str) : str := newlines_scan false s.

(** [Path(p).exists()]: the answer of [stat], which raises when the
    path cannot be examined. *)
Definition path_exists (p : string) : M bool := fun w =>
  match fs w !! p with
  | Some NoAccess => (Raise IOFailure, w)
  | Some (Node _ _) => (Ok true, w)
  | None => (Ok false, w)
  end.

(** [Path(p).read_text(...)]: the stored text, line ends translated. *)
Definition read_text (p : string) : M str := fun w =>
  match fs w !! p with
  | Some (Node (Some c) _) => (Ok (universal_newlines c), w)
  | Some (Node None _) | Some NoAccess | None => (Raise IOFailure, w)
  end.

(** [Path(p).write_text(c, ...)]: the file is opened for writing, which
    empties it or creates it, and [c] is encoded and written after
    that; text that cannot be encoded leaves the file empty.  Line
    ends are written as they are (the line separator is LF). *)
Definition write_text (p : string) (c : str) : M unit := fun w =>
  match fs w !! p with
  | Some (Node _ false) | Some NoAccess => (Raise IOFailure, w)
  | Some (Node _ true) | None =>
      if encodable c
      then (Ok tt, set_fs (<[p := Node (Some c) true]> (fs w)) w)
      else (Raise IOFailure, set_fs (<[p := Node (Some []) true]> (fs w)) w)
  end.

Definition path_cwd_name : M str := fun w => (Ok (cwd_name w), w).
Definition datetime_now_year : M N := fun w => (Ok (now_year w), w).

(** [config[k]] on the configuration dictionary. *)
Definition getitem (config : gmap string str) (k : string) : M str :=
  match config !! k with
  | Some v => ret v
  | None => raise (KeyError k)
  end.

(** A [Dict[str, str]] whose order matters: Python keeps the keys in
    insertion order, and storing under a key already present keeps its
    place and changes its value. *)
Abbreviation pydict := (list (str * str)).

Fixpoint dict_set (k v : str) (d : pydict) : pydict :=
  match d with
  | [] => [(k, v)]
  | (k', v') :: rest =>
      if bool_decide (k = k') then (k, v) :: rest
      else (k', v') :: dict_set k v rest
  end.

(** A dictionary display [{k1: v1, k2: v2, ...}]: the pairs are stored
    in the order written. *)
Definition dict_display (pairs : list (str * str)) : pydict :=
  fold_left (fun d kv => dict_set kv.1 kv.2 d) pairs [].

(** [d.items()]. *)
Definition items (d : pydict) : list (str * str) := d.

(** ** scripts/setup.py *)

(** The value bound to [default_package_name] in [get_user_input]:
    [re.sub(r'[^a-zA-Z0-9_-]', '-', config['project_name'].lower())]. *)
Definition default_package_name (project_name : str) : str :=
  re_sub_not_in_class (lit "-") (lower project_name).

(** [get_user_input]: six prompts, each answer stripped and replaced
    by the default when empty. *)
Definition get_user_input : M (gmap string str) :=
  print Welcome ;;;
  let config : gmap string str := ∅ in
  default_project_name <- path_cwd_name ;;
  answer <- input (Prompt "Project name" default_project_name) ;;
  let config :=
    <["project_name" := py_or (strip answer) default_project_name]> config in
  project_name <- getitem config "project_name" ;;
  let default_package_name := default_package_name project_name in
  answer <- input (Prompt "Package name" default_package_name) ;;
  let config :=
    <["package_name" := py_or (strip answer) default_package_name]> config in
  answer <- input (Prompt "GitHub organization or username" (lit "ethereum")) ;;
  let config :=
    <["github_org" := py_or (strip answer) (lit "ethereum")]> config in
  answer <- input (Prompt "Author name" (lit "Ethereum Foundation")) ;;
  let config :=
    <["author_name" := py_or (strip answer) (lit "Ethereum Foundation")]> config in
  answer <- input (Prompt "Author email" (lit "security@ethereum.org")) ;;
  let config :=
    <["author_email" := py_or (strip answer) (lit "security@ethereum.org")]> config in
  current_year <- datetime_now_year ;;
  answer <- input (Prompt "Copyright year" (str_of_N current_year)) ;;
  let config :=
    <["year" := py_or (strip answer) (str_of_N current_year)]> config in
  ret config.

(** The loop of [replace_in_file]:
    [for old, new in replacements.items(): content = content.replace(old, new)]. *)
Fixpoint replace_items (pairs : list (str * str)) (content : str) : str :=
  match pairs with
  | [] => content
  | (old, new) :: rest => replace_items rest (replace content old new)
  end.

(** [replace_in_file]: read, replace, write back; any [Exception] is
    reported and swallowed. *)
Definition replace_in_file (file_path : string) (replacements : pydict) : M unit :=
  try_except
    (content <- read_text file_path ;;
     let content := replace_items (items replacements) content in
     write_text file_path content ;;;
     print (Updated file_path))
    (fun e =>
       if is_Exception e then Some (print (ErrorUpdating file_path e))
       else None).

Definition files_to_update : list string :=
  [ "pyproject.toml"; "mkdocs.yml"; "README.md"; "LICENSE"; "docs/index.md";
    ".github/ISSUE_TEMPLATE/bug_report.md";
    ".github/ISSUE_TEMPLATE/feature_request.md" ]%string.

(** The [replacements] dictionary of [setup_project], from the six
    values looked up in [config]. *)
Definition replacements_of
    (project_name package_name github_org author_name author_email year : str)
    : pydict :=
  dict_display
    [ (lit "{PROJECT_NAME}", project_name);
      (lit "{PACKAGE_NAME}", package_name);
      (lit "{GITHUB_ORG}", github_org);
      (lit "{AUTHOR_NAME}", author_name);
      (lit "{AUTHOR_EMAIL}", author_email);
      (lit "{YEAR}", year);
      (lit "ethereum-protocol-specs", package_name);
      (lit "ethereum-specs", package_name);
      (lit "Your Name", author_name);
      (lit "your.email@example.com", author_email);
      (lit "Ethereum Foundation", author_name);
      (lit "2025", year);
      (lit "2024", year);
      (lit "ethereum/ethereum-protocol-specs",
       github_org ++ lit "/" ++ package_name);
      (lit "https://github.com/ethereum/...",
       lit "https://github.com/" ++ github_org ++ lit "/" ++ package_name) ].

(** The first loop of [setup_project] ("Process each file"). *)
Definition process_each_file (replacements : pydict) : M unit :=
  for_each files_to_update (fun file_path =>
    present <- path_exists file_path ;;
    if present then replace_in_file file_path replacements
    else print (FileNotFound file_path)).

(** The second loop of [setup_project] ("Update <repository-url>
    placeholders"); nothing here catches an exception. *)
Definition update_repository_url (config : gmap string str) : M unit :=
  for_each ["README.md"; "docs/index.md"]%string (fun file_path =>
    present <- path_exists file_path ;;
    if present then
      content <- read_text file_path ;;
      github_org <- getitem config "github_org" ;;
      package_name <- getitem config "package_name" ;;
      let content :=
        replace content (lit "<repository-url>")
          (lit "https://github.com/" ++ github_org ++ lit "/" ++ package_name) in
      write_text file_path content
    else ret tt).

(** [setup_project]. *)
Definition setup_project (config : gmap string str) : M unit :=
  project_name <- getitem config "project_name" ;;
  package_name <- getitem config "package_name" ;;
  github_org <- getitem config "github_org" ;;
  author_name <- getitem config "author_name" ;;
  author_email <- getitem config "author_email" ;;
  year <- getitem config "year" ;;
  let replacements :=
    replacements_of project_name package_name github_org
      author_name author_email year in
  process_each_file replacements ;;;
  update_repository_url config ;;;
  project_name <- getitem config "project_name" ;;
  print (SetupComplete project_name).

(** The configuration summary printed by [main]. *)
Definition print_summary (config : gmap string str) : M unit :=
  _ <- getitem config "project_name" ;;
  _ <- getitem config "package_name" ;;
  _ <- getitem config "github_org" ;;
  _ <- getitem config "author_name" ;;
  _ <- getitem config "author_email" ;;
  _ <- getitem config "year" ;;
  print (ConfigurationSummary config).

(** The body of the [try] statement of [main]. *)
Definition main_try : M unit :=
  config <- get_user_input ;;
  print_summary config ;;;
  answer <- input ConfirmPrompt ;;
  let confirm := lower (strip answer) in
  if in_list confirm [ []; lit "y"; lit "yes" ] then setup_project config
  else print SetupCancelled.

(** The [except] clauses of [main], in order. *)
Definition main_except (e : exn) : option (M unit) :=
  match e with
  | KeyboardInterrupt => Some (print SetupCancelled ;;; sys_exit 0)
  | _ =>
      if is_Exception e then Some (print (ErrorOccurred e) ;;; sys_exit 1)
      else None
  end.

(** [main]. *)
Definition main : M unit :=
  present <- path_exists "pyproject.toml" ;;
  (if negb present then print NotInProjectRoot ;;; sys_exit 1 else ret tt) ;;;
  pyproject_content <- read_text "pyproject.toml" ;;
  (if negb (contains (lit "{PACKAGE_NAME}") pyproject_content)
   then print AlreadyConfigured ;;; sys_exit 1 else ret tt) ;;;
  try_except main_try main_except.

(** The status the process ends with: 0 when [main] returns, the code
    of [sys.exit], 1 for an exception nobody caught (130, the shell's
    status for SIGINT, for an uncaught [KeyboardInterrupt]). *)
Definition exit_status (r : result unit) : Z :=
  match r with
  | Ok _ => 0
  | Raise (SystemExit code) => code
  | Raise KeyboardInterrupt => 130
  | Raise _ => 1
  end.

(** ** src/example *)

Module Example.

(** The records of [types.py].  Field names that Python repeats in
    two classes carry a [tx_] prefix in [Transaction]. *)
Record Address := { address_value : list Byte.byte }.

Record Transaction := {
  nonce : Z;
  gas_price : Z;
  tx_gas_limit : Z;
  to : option Address;
  value : Z;
  tx_data : list Byte.byte
}.

Record Block := {
  number : Z;
  parent_hash : list Byte.byte;
  transactions : list Transaction;
  gas_used : Z;
  gas_limit : Z
}.

(** The field constraints pydantic checks when a [Block] is built. *)
Definition Block_fields_ok (b : Block) : bool :=
  (0 <=? number b)%Z && (length (parent_hash b) =? 32)%nat
  && (0 <=? gas_used b)%Z && (0 <=? gas_limit b)%Z.

(** [validate_block_gas]. *)
Definition validate_block_gas (block : Block) : bool :=
  (gas_used block <=? gas_limit block)%Z.

End Example.

(** ** Vocabulary of the statements *)

(** The configuration [get_user_input] builds from six answers. *)
Definition config_of (cwd : str) (yr : N) (a1 a2 a3 a4 a5 a6 : str)
    : gmap string str :=
  let project_name := py_or (strip a1) cwd in
  <["year" := py_or (strip a6) (str_of_N yr)]>
  (<["author_email" := py_or (strip a5) (lit "security@ethereum.org")]>
  (<["author_name" := py_or (strip a4) (lit "Ethereum Foundation")]>
  (<["github_org" := py_or (strip a3) (lit "ethereum")]>
  (<["package_name" := py_or (strip a2) (default_package_name project_name)]>
  (<["project_name" := project_name]> ∅))))).

(** What [get_user_input] writes to the terminal when all six prompts
    are answered. *)
Definition prompts_of (cwd : str) (yr : N) (a1 : str) : list msg :=
  [ Welcome;
    Prompt "Project name" cwd;
    Prompt "Package name" (default_package_name (py_or (strip a1) cwd));
    Prompt "GitHub organization or username" (lit "ethereum");
    Prompt "Author name" (lit "Ethereum Foundation");
    Prompt "Author email" (lit "security@ethereum.org");
    Prompt "Copyright year" (str_of_N yr) ].

Definition config_keys : list string :=
  [ "project_name"; "package_name"; "github_org"; "author_name";
    "author_email"; "year" ]%string.

(** The world in which the confirmation prompt is put, after six
    answers and the summary. *)
Definition before_confirmation
    (w : world) (config : gmap string str) (a1 : str) (rest : list event)
    : world :=
  World (fs w) (cwd_name w) (now_year w) rest
    ((stdout w ++ prompts_of (cwd_name w) (now_year w) a1)
     ++ [ConfigurationSummary config]).

(** The answers [main] takes for a yes. *)
Definition affirmative (answer : str) : bool :=
  in_list (lower (strip answer)) [ []; lit "y"; lit "yes" ].

(** The sanitisation in the order the specification words it: every
    character outside the class becomes a hyphen, and the result is
    lowercased afterwards. *)
Definition spec_default_package_name (project_name : str) : str :=
  lower (re_sub_not_in_class (lit "-") project_name).

Definition is_ascii (c : N) : Prop := (c < 128)%N.

(** The guard of [main] lets the run through. *)
Definition unconfigured (w : world) : Prop :=
  exists c wr,
    fs w !! "pyproject.toml"%string = Some (Node (Some c) wr)
    /\ contains (lit "{PACKAGE_NAME}") c = true.

(** A file that can be read and written back. *)
Definition regular (n : option node) : Prop :=
  exists c, n = Some (Node (Some c) true).

(** Text without a line end in it, as every token of the script is. *)
Definition line_end_free (s : str) : Prop :=
  Forall (fun d => d <> 10%N /\ d <> 13%N) s.

(** A path that can be examined. *)
Definition accessible (n : option node) : bool :=
  match n with
  | Some NoAccess => false
  | _ => true
  end.

(** Reading the file at a path, applying [f] to the text and writing
    the result back all succeed: the file is readable and writable and
    the result can be encoded.  An absent path counts as a success for
    a pass that skips it. *)
Definition succeeds (f : str -> str) (n : option node) : bool :=
  match n with
  | None => true
  | Some (Node (Some c) true) => encodable (f (universal_newlines c))
  | Some _ => false
  end.

(** The outcome reported for one target file of the main pass, which
    applies [f], from what is at its path. *)
Definition outcome_of (f : str -> str) (path : string) (n : option node) : msg :=
  match n with
  | None => FileNotFound path
  | Some _ =>
      if succeeds f n then Updated path else ErrorUpdating path IOFailure
  end.

(** A path after the attempt to rewrite its text with [f].  A file
    that is readable and writable holds the new text, or nothing when
    the new text could not be encoded; anything else is as before. *)
Definition rewritten (f : str -> str) (n : option node) : option node :=
  match n with
  | Some (Node (Some c) true) =>
      let r := f (universal_newlines c) in
      Some (Node (Some (if encodable r then r else [])) true)
  | other => other
  end.

(** The paths of a list that a pass gets to: those before the first
    one that cannot be examined. *)
Fixpoint examined (f : gmap string node) (l : list string) : list string :=
  match l with
  | [] => []
  | p :: rest => if accessible (f !! p) then p :: examined f rest else []
  end.

Definition repository_url_files : list string :=
  [ "README.md"; "docs/index.md" ]%string.

Definition repository_url (github_org package_name : str) : str :=
  lit "https://github.com/" ++ github_org ++ lit "/" ++ package_name.

(** The two placeholder tokens of the substitution example. *)
Inductive token := ProjectToken | PackageToken.

Definition token_text (t : token) : str :=
  match t with
  | ProjectToken => lit "{PROJECT_NAME}"
  | PackageToken => lit "{PACKAGE_NAME}"
  end.

Definition token_value (project_name package_name : str) (t : token) : str :=
  match t with
  | ProjectToken => project_name
  | PackageToken => package_name
  end.

Definition is_project_token (t : token) : bool :=
  match t with ProjectToken => true | PackageToken => false end.

(** A fresh template and a repository that was set up already, each
    with nothing but its [pyproject.toml]. *)
Definition template : gmap string node :=
  {[ "pyproject.toml"%string :=
       Node (Some (lit "name = '{PACKAGE_NAME}'")) true ]}.

Definition configured : gmap string node :=
  {[ "pyproject.toml"%string :=
       Node (Some (lit "name = 'acme-specs'")) true ]}.

(** A command leaves the files alone, whatever it returns or raises. *)
Definition keeps_fs {A} (m : M A) : Prop :=
  forall w, fs (m w).2 = fs w.

(** ** Vocabulary of the further statements *)

(** Text made of whitespace only. *)
Definition blank (s : str) : Prop := Forall (fun c => isspace c = true) s.

(** Text that neither begins nor ends with whitespace. *)
Definition no_outer_space (s : str) : Prop :=
  (forall c, head s = Some c -> isspace c = false)
  /\ (forall c, last s = Some c -> isspace c = false).

(** Membership in [[a-z0-9_-]]. *)
Definition in_lowercase_class (c : N) : bool :=
  (((0x61 <=? c) && (c <=? 0x7A)) || ((0x30 <=? c) && (c <=? 0x39))
   || (c =? 0x5F) || (c =? 0x2D))%N.

(** What reading up to [n] answers raises, if anything: the end of
    standard input or an interrupt, whichever comes first. *)
Fixpoint answers_raise (n : nat) (i : list event) : option exn :=
  match n with
  | O => None
  | S n' =>
      match i with
      | [] => Some EOFError
      | CtrlC :: _ => Some KeyboardInterrupt
      | Line _ :: rest => answers_raise n' rest
      end
  end.

(** The answers left unread after reading up to [n] of them. *)
Fixpoint unread (n : nat) (i : list event) : list event :=
  match n with
  | O => i
  | S n' =>
      match i with
      | [] => []
      | CtrlC :: rest => rest
      | Line _ :: rest => unread n' rest
      end
  end.

(** The files after a command differ from those before it at most in
    [targets], and only where a readable and writable file was
    replaced by another one: nothing is created or removed. *)
Definition fs_step (targets : list string) (f f' : gmap string node) : Prop :=
  forall p,
    f' !! p = f !! p
    \/ (In p targets /\ regular (f !! p) /\ regular (f' !! p)).

Definition rewrites_only {A} (targets : list string) (m : M A) : Prop :=
  forall w, fs_step targets (fs w) (fs (m w).2).

(** Every exception a command raises satisfies [P]. *)
Definition raises_only {A} (P : exn -> Prop) (m : M A) : Prop :=
  forall w e, (m w).1 = Raise e -> P e.

(** What the body of the [try] in [main] can raise: anything but
    [SystemExit]. *)
Definition not_SystemExit (e : exn) : Prop :=
  forall code, e <> SystemExit code.

(** The files [setup_project] leaves when it runs to its end. *)
Definition after_setup
    (replacements : pydict) (url : str) (f : gmap string node) (p : string)
    : option node :=
  let main_pass :=
    if decide (p ∈ files_to_update)
    then rewritten (replace_items (items replacements)) (f !! p)
    else f !! p in
  if decide (p ∈ repository_url_files)
  then rewritten (fun c => replace c (lit "<repository-url>") url) main_pass
  else main_pass.

(** * Properties *)

(** ** Strings *)

Lemma replace_scan_skip old new k s :
  replace_scan old new k s = replace_scan old new 0 (drop k s).
Proof.
  revert k. induction s as [|c t IH]; intros [|k]; simpl; try reflexivity.
  apply IH.
Qed.

Lemma is_prefix_app p s : is_prefix p (p ++ s) = true.
Proof.
  induction p as [|a p IH]; simpl; [done|].
  by rewrite N.eqb_refl, IH.
Qed.

Section replace_facts.
Context (old new : str).

Hypothesis old_nonempty : old <> [].

(** The three equations that determine [replace] for a non-empty
    [old]: nothing to do at the end of the text; an occurrence at the
    front is replaced and the scan resumes after it; any other
    character is copied. *)
Lemma replace_nil : replace [] old new = [].
Proof using old_nonempty. by destruct old. Qed.

Lemma replace_at_occurrence s :
  replace (old ++ s) old new = new ++ replace s old new.
Proof using old_nonempty.
  destruct old as [|a p]; [done|].
  unfold replace. change ((a :: p) ++ s) with (a :: (p ++ s)).
  cbn [replace_scan].
  change (a :: p ++ s) with ((a :: p) ++ s).
  rewrite is_prefix_app. f_equal.
  rewrite replace_scan_skip. f_equal.
  simpl. rewrite Nat.sub_0_r. by rewrite drop_app_length.
Qed.

Lemma replace_elsewhere c s :
  is_prefix old (c :: s) = false ->
  replace (c :: s) old new = c :: replace s old new.
Proof using old_nonempty.
  destruct old as [|a p]; [done|]. intros H.
  unfold replace. cbn [replace_scan]. by rewrite H.
Qed.

(** Text without an occurrence of [old] is returned as it is. *)
Lemma replace_absent s :
  contains old s = false -> replace s old new = s.
Proof using old_nonempty.
  induction s as [|c t IH]; [intros _; apply replace_nil|].
  intros H. simpl in H. apply orb_false_iff in H as [H1 H2].
  rewrite replace_elsewhere by done. f_equal. by apply IH.
Qed.
End replace_facts.

Example replace_all_occurrences :
  replace (lit "a-b-c") (lit "-") (lit "+") = lit "a+b+c".
Proof. reflexivity. Qed.

Example replace_non_overlapping :
  replace (lit "aaaa") (lit "aa") (lit "b") = lit "bb"
  /\ replace (lit "aaa") (lit "aa") (lit "b") = lit "ba".
Proof. split; reflexivity. Qed.

Example replace_is_literal :
  replace (lit "a.c abc") (lit "a.c") (lit "X") = lit "X abc".
Proof. reflexivity. Qed.

Example replace_empty_old :
  replace (lit "abc") [] (lit "-") = lit "-a-b-c-".
Proof. reflexivity. Qed.

Example strip_both_sides : strip (lit "  yes ") = lit "yes".
Proof. reflexivity. Qed.

Example lower_ascii : lower (lit "My Cool App!") = lit "my cool app!".
Proof. reflexivity. Qed.

Example str_of_year : str_of_N 2026%N = lit "2026".
Proof. reflexivity. Qed.


Lemma py_or_empty d : py_or [] d = d.
Proof. reflexivity. Qed.






(** A property of code points checked on all of ASCII holds of every
    ASCII code point. *)
Lemma ascii_cases (P : N -> bool) :
  forallb P (List.map N.of_nat (seq 0 128)) = true ->
  forall c, is_ascii c -> P c = true.
Proof.
  intros H c Hc. rewrite forallb_forall in H. apply H.
  apply in_map_iff. exists (N.to_nat c). split; [lia|].
  apply in_seq. unfold is_ascii in Hc. lia.
Qed.

Lemma sanitise_commutes_on_ascii_cp c :
  is_ascii c ->
  re_sub_not_in_class (lit "-") (lower_cp c)
  = lower (re_sub_not_in_class (lit "-") [c]).
Proof.
  intros Hc.
  eapply bool_decide_eq_true_1.
  revert c Hc.
  apply (ascii_cases (fun c => bool_decide
    (re_sub_not_in_class (lit "-") (lower_cp c)
     = lower (re_sub_not_in_class (lit "-") [c])))).
  vm_compute. reflexivity.
Qed.

Lemma sanitise_commutes_on_ascii s :
  Forall is_ascii s ->
  default_package_name s = spec_default_package_name s.
Proof.
  unfold default_package_name, spec_default_package_name, lower,
    re_sub_not_in_class.
  induction 1 as [|c t Hc _ IH]; [done|].
  cbn [flat_map]. rewrite !flat_map_app, IH. f_equal.
  pose proof (sanitise_commutes_on_ascii_cp c Hc) as E.
  unfold lower, re_sub_not_in_class in E. cbn [flat_map] in E.
  rewrite app_nil_r in E. exact E.
Qed.

(** ** Line ends and encoding *)

Lemma contains_cons sub c t :
  contains sub (c :: t) = is_prefix sub (c :: t) || contains sub t.
Proof. reflexivity. Qed.

Lemma is_prefix_newlines_scan tok s :
  line_end_free tok ->
  is_prefix tok (newlines_scan false s) = is_prefix tok s.
Proof.
  intros H. revert s. induction H as [|a tok [Ha1 Ha2] _ IH]; intros s.
  - by destruct s.
  - destruct s as [|c t]; [done|]. cbn [newlines_scan].
    destruct (N.eqb_spec c 13) as [->|Hc].
    + cbn [is_prefix].
      by rewrite (proj2 (N.eqb_neq a 10) Ha1), (proj2 (N.eqb_neq a 13) Ha2).
    + rewrite andb_false_r. cbn [is_prefix]. by rewrite IH.
Qed.

(** Translating the line ends neither makes nor breaks an occurrence
    of a token that has no line end in it. *)
Lemma contains_newlines_scan tok b s :
  line_end_free tok -> tok <> [] ->
  contains tok (newlines_scan b s) = contains tok s.
Proof.
  intros H Hne. destruct tok as [|a tok]; [done|].
  apply Forall_cons in H as [[Ha1 Ha2] H].
  apply N.eqb_neq in Ha1, Ha2.
  revert b. induction s as [|c t IH]; intros b; [done|].
  cbn [newlines_scan]. rewrite (contains_cons _ c t).
  destruct (N.eqb_spec c 13) as [->|Hc13].
  { rewrite contains_cons, IH. cbn [is_prefix]. by rewrite Ha1, Ha2. }
  destruct (N.eqb_spec c 10) as [->|Hc10], b; cbn [andb].
  - rewrite IH. cbn [is_prefix]. by rewrite Ha1.
  - rewrite contains_cons, IH. cbn [is_prefix]. by rewrite Ha1.
  - rewrite contains_cons, IH. cbn [is_prefix].
    by rewrite (is_prefix_newlines_scan tok t H).
  - rewrite contains_cons, IH. cbn [is_prefix].
    by rewrite (is_prefix_newlines_scan tok t H).
Qed.

Lemma contains_universal_newlines tok s :
  line_end_free tok -> tok <> [] ->
  contains tok (universal_newlines s) = contains tok s.
Proof. apply contains_newlines_scan. Qed.

Lemma package_token_line_end_free : line_end_free (lit "{PACKAGE_NAME}").
Proof. repeat constructor; discriminate. Qed.

Lemma contains_package_token s :
  contains (lit "{PACKAGE_NAME}") (universal_newlines s)
  = contains (lit "{PACKAGE_NAME}") s.
Proof.
  apply contains_universal_newlines;
    [apply package_token_line_end_free|discriminate].
Qed.

(** Text without a CR is read as it is stored. *)
Lemma universal_newlines_no_cr s :
  Forall (fun d => d <> 13%N) s -> universal_newlines s = s.
Proof.
  unfold universal_newlines. induction 1 as [|c t Hc _ IH]; [done|].
  cbn [newlines_scan]. rewrite (proj2 (N.eqb_neq c 13) Hc), andb_false_r.
  by rewrite IH.
Qed.

Example universal_newlines_cr_lf :
  universal_newlines [97; 13; 10; 98; 13; 99; 10]%N = [97; 10; 98; 10; 99; 10]%N.
Proof. reflexivity. Qed.

Example encodable_surrogate :
  encodable [0xDCFF%N] = false /\ encodable (lit "plain") = true.
Proof. split; reflexivity. Qed.

(** ** Block gas validation *)

(** The two blocks of [tests/example/test_validation.py]. *)
Example test_validate_block_gas :
  let valid_block :=
    Example.Build_Block 1 (repeat Byte.x00 32) [] 1000000 15000000 in
  let invalid_block :=
    Example.Build_Block 1 (repeat Byte.x00 32) [] 15000001 15000000 in
  Example.Block_fields_ok valid_block = true
  /\ Example.validate_block_gas valid_block = true
  /\ Example.Block_fields_ok invalid_block = true
  /\ Example.validate_block_gas invalid_block = false.
Proof. repeat split. Qed.

(** C10.  [validate_block_gas block] is [True] exactly when
    [block.gas_used <= block.gas_limit]; the comparison is not strict,
    so a block that uses exactly its limit is valid. *)
Theorem validate_block_gas_iff (block : Example.Block) :
  (Example.validate_block_gas block = true
   <-> (Example.gas_used block <= Example.gas_limit block)%Z)
  /\ (Example.gas_used block = Example.gas_limit block ->
      Example.validate_block_gas block = true).
Proof.
  unfold Example.validate_block_gas. split.
  - apply Z.leb_le.
  - intros ->. apply Z.leb_refl.
Qed.

(** ** The substitution map *)

Lemma replace_items_fold pairs content :
  replace_items pairs content
  = fold_left (fun c kv => replace c kv.1 kv.2) pairs content.
Proof.
  revert content. induction pairs as [|[old new] rest IH]; intros content.
  - reflexivity.
  - simpl. apply IH.
Qed.

(** The fifteen keys of the display are distinct, so the dictionary
    holds the pairs as written, in that order. *)
Lemma replacements_items
    (project_name package_name github_org author_name author_email year : str) :
  items (replacements_of project_name package_name github_org
           author_name author_email year)
  = [ (lit "{PROJECT_NAME}", project_name);
      (lit "{PACKAGE_NAME}", package_name);
      (lit "{GITHUB_ORG}", github_org);
      (lit "{AUTHOR_NAME}", author_name);
      (lit "{AUTHOR_EMAIL}", author_email);
      (lit "{YEAR}", year);
      (lit "ethereum-protocol-specs", package_name);
      (lit "ethereum-specs", package_name);
      (lit "Your Name", author_name);
      (lit "your.email@example.com", author_email);
      (lit "Ethereum Foundation", author_name);
      (lit "2025", year);
      (lit "2024", year);
      (lit "ethereum/ethereum-protocol-specs",
       github_org ++ lit "/" ++ package_name);
      (lit "https://github.com/ethereum/...",
       lit "https://github.com/" ++ github_org ++ lit "/" ++ package_name) ].
Proof. reflexivity. Qed.

(** Storing under a key that is already present keeps the key's place. *)
Example dict_set_keeps_place :
  dict_display [ (lit "a", lit "1"); (lit "b", lit "2"); (lit "a", lit "3") ]
  = [ (lit "a", lit "3"); (lit "b", lit "2") ].
Proof. reflexivity. Qed.

(** [replace_in_file] on a file that can be read and opened for
    writing: the text is read with its line ends translated, the pairs
    are applied, and the result is written if it can be encoded; if
    not, the file is left empty and the error is reported. *)
Lemma replace_in_file_regular w path replacements stored :
  fs w !! path = Some (Node (Some stored) true) ->
  let result :=
    replace_items (items replacements) (universal_newlines stored) in
  replace_in_file path replacements w
  = if encodable result
    then (Ok tt,
          emit (Updated path)
            (set_fs (<[path := Node (Some result) true]> (fs w)) w))
    else (Ok tt,
          emit (ErrorUpdating path IOFailure)
            (set_fs (<[path := Node (Some []) true]> (fs w)) w)).
Proof.
  intros H result.
  unfold replace_in_file, try_except, bind, read_text, write_text, print.
  rewrite H. cbn beta iota. rewrite H. fold result.
  by destruct (encodable result).
Qed.

(** C2, as amended.  On a file that can be read and written,
    [replace_in_file] starts from the text as read (in text mode, so
    CR LF and CR arrive as LF) and applies the pairs of the map in map
    order, each by literal replacement of every occurrence (see
    [replace_nil], [replace_at_occurrence], [replace_elsewhere]) in
    the same buffer: the buffer ends as the left fold of [str.replace]
    over the pairs.  When that text can be encoded as UTF-8, it is
    what the file holds afterwards, the file is reported as updated
    and no other path changes.  The map of [setup_project] holds its
    fifteen pairs in the order written.  A later pair sees the text an
    earlier pair inserted: a project name "2024" put in for
    [{PROJECT_NAME}] is then rewritten to the year by the pair for
    "2024". *)
Theorem replace_in_file_is_left_fold
    (w : world) (path : string) (stored : str)
    (project_name package_name github_org author_name author_email year : str) :
  fs w !! path = Some (Node (Some stored) true) ->
  let replacements :=
    replacements_of project_name package_name github_org
      author_name author_email year in
  let result :=
    fold_left (fun c kv => replace c kv.1 kv.2) (items replacements)
      (universal_newlines stored) in
  encodable result = true ->
  (exists w',
     replace_in_file path replacements w = (Ok tt, w')
     /\ fs w' !! path = Some (Node (Some result) true)
     /\ (forall p, p <> path -> fs w' !! p = fs w !! p)
     /\ stdout w' = stdout w ++ [Updated path])
  /\ List.map fst (items replacements)
     = List.map lit
         [ "{PROJECT_NAME}"; "{PACKAGE_NAME}"; "{GITHUB_ORG}"; "{AUTHOR_NAME}";
           "{AUTHOR_EMAIL}"; "{YEAR}"; "ethereum-protocol-specs";
           "ethereum-specs"; "Your Name"; "your.email@example.com";
           "Ethereum Foundation"; "2025"; "2024";
           "ethereum/ethereum-protocol-specs";
           "https://github.com/ethereum/..." ]%string
  /\ fold_left (fun c kv => replace c kv.1 kv.2)
       (items (replacements_of (lit "2024") package_name github_org
                 author_name author_email (lit "2030")))
       (lit "{PROJECT_NAME}")
     = lit "2030".
Proof.
  intros H replacements result Henc. split; [|split].
  - pose proof (replace_in_file_regular w path replacements stored H) as E.
    cbv zeta in E. rewrite replace_items_fold in E. fold result in E.
    rewrite Henc in E. eexists. split; [exact E|]. simpl.
    split; [apply lookup_insert_eq|]. split; [|done].
    intros p Hp. by apply lookup_insert_ne.
  - reflexivity.
  - rewrite replacements_items. vm_compute. reflexivity.
Qed.

Lemma replace_in_file_is_left_fold_witness :
  let w :=
    World {[ "README.md"%string :=
               Node (Some (lit "# {PROJECT_NAME} 2024")) true ]}
      (lit "demo") 2026 [] [] in
  exists w',
    replace_in_file "README.md"
      (replacements_of (lit "Foo") (lit "bar") (lit "ethereum")
         (lit "Ethereum Foundation") (lit "security@ethereum.org")
         (lit "2026")) w
    = (Ok tt, w')
    /\ fs w' !! "README.md"%string = Some (Node (Some (lit "# Foo 2026")) true)
    /\ stdout w' = [Updated "README.md"].
Proof.
  intros w.
  destruct (replace_in_file_is_left_fold w "README.md"
              (lit "# {PROJECT_NAME} 2024")
              (lit "Foo") (lit "bar") (lit "ethereum")
              (lit "Ethereum Foundation") (lit "security@ethereum.org")
              (lit "2026"))
    as [(w' & E & F & _ & O) _].
  - vm_compute. reflexivity.
  - vm_compute. reflexivity.
  - exists w'. split; [exact E|]. split; [|exact O].
    rewrite F. vm_compute. reflexivity.
Defined.

(** C2 as stated fails in two ways.  A configuration value with a lone
    surrogate (where standard input decodes with [surrogateescape], an
    undecodable byte typed at a prompt arrives as one) cannot be
    encoded: the file has been emptied by then and stays
    empty, reported as an error, while the left fold is the surrogate.
    And a file stored with CR LF line ends is read with LF, so the
    fold starts from the translated text, not from what the file
    held. *)
Lemma replace_in_file_not_always_the_fold :
  let fold_of project_name content :=
    fold_left (fun c kv => replace c kv.1 kv.2)
      (items (replacements_of project_name (lit "bar") (lit "ethereum")
                (lit "Ethereum Foundation") (lit "security@ethereum.org")
                (lit "2026")))
      content in
  let run project_name stored :=
    replace_in_file "README.md"
      (replacements_of project_name (lit "bar") (lit "ethereum")
         (lit "Ethereum Foundation") (lit "security@ethereum.org")
         (lit "2026"))
      (World {[ "README.md"%string := Node (Some stored) true ]}
         (lit "demo") 2026 [] []) in
  (fold_of [0xDCFF%N] (lit "{PROJECT_NAME}") = [0xDCFF%N]
   /\ fs (run [0xDCFF%N] (lit "{PROJECT_NAME}")).2 !! "README.md"%string
      = Some (Node (Some []) true)
   /\ stdout (run [0xDCFF%N] (lit "{PROJECT_NAME}")).2
      = [ErrorUpdating "README.md" IOFailure])
  /\ (fold_of (lit "Foo") [97; 13; 10; 98]%N = [97; 13; 10; 98]%N
      /\ fs (run (lit "Foo") [97; 13; 10; 98]%N).2 !! "README.md"%string
         = Some (Node (Some [97; 10; 98]%N) true)).
Proof. vm_compute. repeat split. Qed.

(** C6.  A file made only of the tokens [{PROJECT_NAME}] and
    [{PACKAGE_NAME}], twice each in any order, becomes the same
    sequence with "Foo" for the first token and "bar" for the second
    under the full map; the other thirteen pairs change nothing,
    whatever the other four configuration values are (their defaults
    included). *)
Theorem tokens_only_file_substituted
    (tokens : list token) (github_org author_name author_email year : str) :
  length (filter is_project_token tokens) = 2 ->
  length (filter (fun t => negb (is_project_token t)) tokens) = 2 ->
  replace_items
    (items (replacements_of (lit "Foo") (lit "bar") github_org
              author_name author_email year))
    (concat (List.map token_text tokens))
  = concat (List.map (token_value (lit "Foo") (lit "bar")) tokens).
Proof.
  intros Hp Hk. rewrite replacements_items.
  do 5 (destruct tokens as [|[] tokens]; try discriminate);
    simpl in Hp, Hk; try lia; vm_compute; reflexivity.
Qed.

Lemma tokens_only_file_substituted_witness :
  replace_items
    (items (replacements_of (lit "Foo") (lit "bar") (lit "ethereum")
              (lit "Ethereum Foundation") (lit "security@ethereum.org")
              (str_of_N 2026)))
    (lit "{PROJECT_NAME}{PACKAGE_NAME}{PACKAGE_NAME}{PROJECT_NAME}")
  = lit "FoobarbarFoo".
Proof.
  exact (tokens_only_file_substituted
           [ProjectToken; PackageToken; PackageToken; ProjectToken]
           (lit "ethereum") (lit "Ethereum Foundation")
           (lit "security@ethereum.org") (str_of_N 2026) eq_refl eq_refl).
Defined.

(** ** Collecting the configuration *)

Lemma get_user_input_lines w a1 a2 a3 a4 a5 a6 rest :
  stdin w
  = Line a1 :: Line a2 :: Line a3 :: Line a4 :: Line a5 :: Line a6 :: rest ->
  get_user_input w
  = (Ok (config_of (cwd_name w) (now_year w) a1 a2 a3 a4 a5 a6),
     World (fs w) (cwd_name w) (now_year w) rest
       (stdout w ++ prompts_of (cwd_name w) (now_year w) a1)).
Proof.
  destruct w as [f c y i o]; simpl; intros ->.
  unfold get_user_input, bind, print, input, path_cwd_name, datetime_now_year,
    emit, set_stdin, ret, getitem; simpl.
  rewrite lookup_insert_eq. simpl.
  unfold config_of, prompts_of. repeat rewrite <- app_assoc. reflexivity.
Qed.

Lemma config_of_lookups cwd yr a1 a2 a3 a4 a5 a6 :
  let config := config_of cwd yr a1 a2 a3 a4 a5 a6 in
  let project_name := py_or (strip a1) cwd in
  config !! "project_name"%string = Some project_name
  /\ config !! "package_name"%string
     = Some (py_or (strip a2) (default_package_name project_name))
  /\ config !! "github_org"%string = Some (py_or (strip a3) (lit "ethereum"))
  /\ config !! "author_name"%string
     = Some (py_or (strip a4) (lit "Ethereum Foundation"))
  /\ config !! "author_email"%string
     = Some (py_or (strip a5) (lit "security@ethereum.org"))
  /\ config !! "year"%string = Some (py_or (strip a6) (str_of_N yr)).
Proof.
  unfold config_of. cbv zeta. repeat split; by simplify_map_eq.
Qed.

(** C3, as amended.  The default offered for [package_name] is the
    lowercased project name with every character outside
    [[a-zA-Z0-9_-]] then mapped to a hyphen: lowercasing comes first.
    It is what the second prompt shows and what an empty answer
    stores.  On a project name of ASCII characters the two orders give
    the same string, and "My Cool App!" gives "my-cool-app-". *)
Theorem package_name_default_lowercases_first
    (w : world) (a1 a2 a3 a4 a5 a6 : str) (rest : list event) :
  stdin w
  = Line a1 :: Line a2 :: Line a3 :: Line a4 :: Line a5 :: Line a6 :: rest ->
  let project_name := py_or (strip a1) (cwd_name w) in
  let default := re_sub_not_in_class (lit "-") (lower project_name) in
  exists config w',
    get_user_input w = (Ok config, w')
    /\ config !! "project_name"%string = Some project_name
    /\ config !! "package_name"%string = Some (py_or (strip a2) default)
    /\ In (Prompt "Package name" default) (stdout w')
    /\ (Forall is_ascii project_name ->
        default = lower (re_sub_not_in_class (lit "-") project_name))
    /\ default_package_name (lit "My Cool App!") = lit "my-cool-app-".
Proof.
  intros Hin project_name default.
  eexists _, _. split; [by apply get_user_input_lines|].
  destruct (config_of_lookups (cwd_name w) (now_year w) a1 a2 a3 a4 a5 a6)
    as (Hpn & Hpk & _).
  split; [exact Hpn|]. split; [exact Hpk|]. split; [|split].
  - simpl. apply in_or_app. right. simpl. right. right. left. reflexivity.
  - apply sanitise_commutes_on_ascii.
  - reflexivity.
Qed.

Lemma package_name_default_lowercases_first_witness :
  let w :=
    World ∅ (lit "My Cool App!") 2026 (repeat (Line []) 6) [] in
  exists config w',
    get_user_input w = (Ok config, w')
    /\ config !! "package_name"%string = Some (lit "my-cool-app-").
Proof.
  intros w.
  destruct (package_name_default_lowercases_first w [] [] [] [] [] [] []
              eq_refl) as (config & w' & E & _ & Hpk & _).
  exists config, w'. split; [exact E|exact Hpk].
Defined.

(** C3 as stated fails: the Kelvin sign U+212A lies outside the class
    but lowercases to ASCII "k".  The script lowercases first and keeps
    the "k"; mapping first and lowercasing afterwards gives "-". *)
Lemma package_name_default_kelvin_sign :
  let w := World ∅ [0x212A%N] 2026 (repeat (Line []) 6) [] in
  exists config w',
    get_user_input w = (Ok config, w')
    /\ config !! "project_name"%string = Some [0x212A%N]
    /\ config !! "package_name"%string = Some (lit "k")
    /\ spec_default_package_name [0x212A%N] = lit "-"
    /\ config !! "package_name"%string
       <> Some (spec_default_package_name [0x212A%N]).
Proof.
  intros w. eexists _, _.
  split; [exact (get_user_input_lines w [] [] [] [] [] [] [] eq_refl)|].
  destruct (config_of_lookups [0x212A%N] 2026 [] [] [] [] [] [])
    as (Hpn & Hpk & _).
  simpl. rewrite Hpn, Hpk.
  repeat split; try reflexivity. discriminate.
Qed.

(** The same happens with U+0130, whose lowercase form is two code
    points: the default has two characters where the project name had
    one. *)
Example default_package_name_dotted_I :
  default_package_name [0x130%N] = lit "i-"
  /\ spec_default_package_name [0x130%N] = lit "-".
Proof. split; reflexivity. Qed.




(** ** Commands that leave the files alone *)

Lemma bind_ok {A B} (m : M A) (k : A -> M B) w a w' :
  m w = (Ok a, w') -> bind m k w = k a w'.
Proof. unfold bind. by intros ->. Qed.

Lemma bind_raise {A B} (m : M A) (k : A -> M B) w e w' :
  m w = (Raise e, w') -> bind m k w = (Raise e, w').
Proof. unfold bind. by intros ->. Qed.

Lemma keeps_fs_ret {A} (a : A) : keeps_fs (ret a).
Proof. by intros w. Qed.

Lemma keeps_fs_raise {A} e : keeps_fs (@raise A e).
Proof. by intros w. Qed.

Lemma keeps_fs_sys_exit {A} code : keeps_fs (@sys_exit A code).
Proof. by intros w. Qed.

Lemma keeps_fs_print m : keeps_fs (print m).
Proof. by intros w. Qed.

Lemma keeps_fs_input m : keeps_fs (input m).
Proof. intros w. unfold input. simpl. by destruct (stdin w) as [|[] ?]. Qed.

Lemma keeps_fs_getitem config k : keeps_fs (getitem config k).
Proof. intros w. unfold getitem. by destruct (config !! k). Qed.

Lemma keeps_fs_path_cwd_name : keeps_fs path_cwd_name.
Proof. by intros w. Qed.

Lemma keeps_fs_datetime_now_year : keeps_fs datetime_now_year.
Proof. by intros w. Qed.

Lemma keeps_fs_path_exists p : keeps_fs (path_exists p).
Proof. intros w. unfold path_exists. by destruct (fs w !! p) as [[]|]. Qed.

Lemma keeps_fs_read_text p : keeps_fs (read_text p).
Proof. intros w. unfold read_text. by destruct (fs w !! p) as [[[] ?|]|]. Qed.

Lemma keeps_fs_bind {A B} (m : M A) (k : A -> M B) :
  keeps_fs m -> (forall a, keeps_fs (k a)) -> keeps_fs (bind m k).
Proof.
  intros Hm Hk w. unfold bind. specialize (Hm w).
  destruct (m w) as [[a|e] w1]; simpl in *; [|done].
  by rewrite Hk.
Qed.

Lemma keeps_fs_try_except {A} (body : M A) handler :
  keeps_fs body ->
  (forall e h, handler e = Some h -> keeps_fs h) ->
  keeps_fs (try_except body handler).
Proof.
  intros Hb Hh w. unfold try_except. specialize (Hb w).
  destruct (body w) as [[a|e] w1]; simpl in *; [done|].
  destruct (handler e) as [h|] eqn:E; [|done].
  by rewrite (Hh e h E).
Qed.

Create HintDb keeps_fs.
#[local] Hint Resolve keeps_fs_ret keeps_fs_raise keeps_fs_sys_exit
  keeps_fs_print keeps_fs_input keeps_fs_getitem keeps_fs_path_cwd_name
  keeps_fs_datetime_now_year keeps_fs_path_exists keeps_fs_read_text
  : keeps_fs.

Ltac solve_keeps_fs :=
  repeat first
    [ apply keeps_fs_bind; [|intros ?]
    | progress auto with keeps_fs ].

Lemma keeps_fs_get_user_input : keeps_fs get_user_input.
Proof. unfold get_user_input. solve_keeps_fs. Qed.

Lemma keeps_fs_print_summary config : keeps_fs (print_summary config).
Proof. unfold print_summary. solve_keeps_fs. Qed.

(** ** Interrupts and the confirmation gate *)

Lemma get_user_input_interrupted w answers rest :
  stdin w = List.map Line answers ++ CtrlC :: rest ->
  length answers < 6 ->
  exists w', get_user_input w = (Raise KeyboardInterrupt, w') /\ fs w' = fs w.
Proof.
  intros Hin Hlen.
  assert (E : (get_user_input w).1 = Raise KeyboardInterrupt).
  { destruct w as [f c y i o]; simpl in Hin; subst i.
    unfold get_user_input, bind, print, input, path_cwd_name,
      datetime_now_year, emit, set_stdin, ret, getitem.
    do 6 (destruct answers as [|? answers];
          [simpl; rewrite ?lookup_insert_eq; reflexivity|]).
    simpl in Hlen. lia. }
  pose proof (keeps_fs_get_user_input w) as F.
  destruct (get_user_input w) as [r w']; simpl in *; subst r. by exists w'.
Qed.

Lemma print_summary_config_of cwd yr a1 a2 a3 a4 a5 a6 w :
  print_summary (config_of cwd yr a1 a2 a3 a4 a5 a6) w
  = (Ok tt, emit (ConfigurationSummary (config_of cwd yr a1 a2 a3 a4 a5 a6)) w).
Proof.
  set (config := config_of cwd yr a1 a2 a3 a4 a5 a6).
  destruct (config_of_lookups cwd yr a1 a2 a3 a4 a5 a6)
    as (H1 & H2 & H3 & H4 & H5 & H6).
  fold config in H1, H2, H3, H4, H5, H6.
  unfold print_summary, getitem, bind.
  rewrite H1, H2, H3, H4, H5, H6. reflexivity.
Qed.

Lemma main_unconfigured w :
  unconfigured w -> main w = try_except main_try main_except w.
Proof.
  intros (c & wr & Hf & Hc). unfold main.
  rewrite (bind_ok _ _ w true w) by (unfold path_exists; by rewrite Hf).
  cbn [negb]. rewrite (bind_ok _ _ w tt w) by reflexivity.
  rewrite (bind_ok _ _ w (universal_newlines c) w)
    by (unfold read_text; by rewrite Hf).
  rewrite contains_package_token, Hc. cbn [negb].
  by rewrite (bind_ok _ _ w tt w).
Qed.

Lemma main_try_collected w a1 a2 a3 a4 a5 a6 rest :
  stdin w
  = Line a1 :: Line a2 :: Line a3 :: Line a4 :: Line a5 :: Line a6 :: rest ->
  let config := config_of (cwd_name w) (now_year w) a1 a2 a3 a4 a5 a6 in
  main_try w
  = bind (input ConfirmPrompt)
      (fun answer =>
         if affirmative answer then setup_project config
         else print SetupCancelled)
      (before_confirmation w config a1 rest).
Proof.
  intros Hin config. unfold main_try.
  rewrite (bind_ok _ _ _ _ _ (get_user_input_lines w _ _ _ _ _ _ _ Hin)).
  cbn beta.
  rewrite (bind_ok _ _ _ _ _ (print_summary_config_of _ _ _ _ _ _ _ _ _)).
  reflexivity.
Qed.

Lemma main_try_interrupted w answers rest :
  stdin w = List.map Line answers ++ CtrlC :: rest ->
  length answers <= 6 ->
  exists w', main_try w = (Raise KeyboardInterrupt, w') /\ fs w' = fs w.
Proof.
  intros Hin Hlen.
  destruct (decide (length answers = 6)) as [H6|Hlt].
  - do 7 (destruct answers as [|? answers]; try discriminate).
    simpl in Hin. rewrite (main_try_collected _ _ _ _ _ _ _ _ Hin).
    eexists. split; reflexivity.
  - destruct (get_user_input_interrupted w answers rest Hin ltac:(lia))
      as (w' & E & F).
    exists w'. split; [|exact F].
    unfold main_try. by rewrite (bind_raise _ _ _ _ _ E).
Qed.

(** C8.  Ctrl-C at any of the six configuration prompts, or at the
    confirmation prompt after them, ends the process with status 0, and
    every path holds what it held before. *)
Theorem interrupt_exits_zero
    (w : world) (answers : list str) (rest : list event) :
  unconfigured w ->
  stdin w = List.map Line answers ++ CtrlC :: rest ->
  length answers <= 6 ->
  exists w',
    main w = (Raise (SystemExit 0), w')
    /\ exit_status (main w).1 = 0%Z
    /\ fs w' = fs w
    /\ last (stdout w') = Some SetupCancelled.
Proof.
  intros Hu Hin Hlen.
  destruct (main_try_interrupted w answers rest Hin Hlen) as (w1 & E & F).
  rewrite (main_unconfigured w Hu). unfold try_except. rewrite E. simpl.
  eexists. split; [reflexivity|]. simpl. repeat split.
  - exact F.
  - apply last_snoc.
Qed.

(** C7.  An answer to the confirmation prompt whose stripped,
    lowercased form is none of "", "y", "yes" cancels the run: [main]
    returns, the process ends with status 0, "Setup cancelled." is the
    last line written, and every path holds what it held before. *)
Theorem declined_confirmation_cancels
    (w : world) (a1 a2 a3 a4 a5 a6 answer : str) (rest : list event) :
  unconfigured w ->
  stdin w
  = Line a1 :: Line a2 :: Line a3 :: Line a4 :: Line a5 :: Line a6
    :: Line answer :: rest ->
  in_list (lower (strip answer)) [ []; lit "y"; lit "yes" ] = false ->
  exists w',
    main w = (Ok tt, w')
    /\ exit_status (main w).1 = 0%Z
    /\ fs w' = fs w
    /\ stdin w' = rest
    /\ last (stdout w') = Some SetupCancelled.
Proof.
  intros Hu Hin Hno.
  rewrite (main_unconfigured w Hu). unfold try_except.
  rewrite (main_try_collected _ _ _ _ _ _ _ _ Hin).
  change (affirmative answer = false) in Hno.
  unfold bind, input. cbn [stdin emit before_confirmation set_stdin].
  rewrite Hno.
  eexists. split; [reflexivity|]. repeat split.
  apply last_snoc.
Qed.

(** An affirmative answer hands the collected configuration to
    [setup_project], inside the [try] of [main]. *)
Lemma accepted_confirmation_runs_setup
    (w : world) (a1 a2 a3 a4 a5 a6 answer : str) (rest : list event) :
  unconfigured w ->
  stdin w
  = Line a1 :: Line a2 :: Line a3 :: Line a4 :: Line a5 :: Line a6
    :: Line answer :: rest ->
  affirmative answer = true ->
  let config := config_of (cwd_name w) (now_year w) a1 a2 a3 a4 a5 a6 in
  main w
  = try_except (setup_project config) main_except
      (emit ConfirmPrompt (before_confirmation w config a1 rest)).
Proof.
  intros Hu Hin Hyes config.
  rewrite (main_unconfigured w Hu). unfold try_except.
  rewrite (main_try_collected _ _ _ _ _ _ _ _ Hin).
  unfold bind, input. cbn [stdin emit before_confirmation set_stdin].
  rewrite Hyes. reflexivity.
Qed.

(** C1.  Without [pyproject.toml], or with one that does not contain
    [{PACKAGE_NAME}], [main] ends with status 1 after one message: no
    prompt is written, no answer is read, and every path holds what it
    held before. *)
Theorem guard_refuses
    (w : world) :
  (fs w !! "pyproject.toml"%string = None
   \/ exists c wr,
        fs w !! "pyproject.toml"%string = Some (Node (Some c) wr)
        /\ contains (lit "{PACKAGE_NAME}") c = false) ->
  exists m,
    main w = (Raise (SystemExit 1), emit m w)
    /\ (m = NotInProjectRoot \/ m = AlreadyConfigured)
    /\ exit_status (main w).1 = 1%Z
    /\ fs (main w).2 = fs w
    /\ stdin (main w).2 = stdin w
    /\ stdout (main w).2 = stdout w ++ [m].
Proof.
  intros [Hf|(c & wr & Hf & Hc)].
  - exists NotInProjectRoot.
    assert (E : main w = (Raise (SystemExit 1), emit NotInProjectRoot w)).
    { unfold main, bind, path_exists. rewrite Hf. reflexivity. }
    rewrite E. repeat split. by left.
  - exists AlreadyConfigured.
    assert (E : main w = (Raise (SystemExit 1), emit AlreadyConfigured w)).
    { unfold main.
      rewrite (bind_ok _ _ w true w) by (unfold path_exists; by rewrite Hf).
      cbn [negb]. rewrite (bind_ok _ _ w tt w) by reflexivity.
      rewrite (bind_ok _ _ w (universal_newlines c) w)
        by (unfold read_text; by rewrite Hf).
      rewrite contains_package_token, Hc. cbn [negb]. reflexivity. }
    rewrite E. repeat split. by right.
Qed.

(** A [pyproject.toml] that cannot be read makes [read_text] raise
    outside the [try]: the exception is not caught, the status is 1
    and nothing has been written. *)
Lemma guard_unreadable w wr :
  fs w !! "pyproject.toml"%string = Some (Node None wr) ->
  main w = (Raise IOFailure, w) /\ exit_status (main w).1 = 1%Z.
Proof.
  intros Hf.
  assert (E : main w = (Raise IOFailure, w)).
  { unfold main, bind, path_exists, read_text. rewrite Hf. simpl.
    rewrite Hf. reflexivity. }
  by rewrite E.
Qed.

(** ** The two passes of [setup_project] *)

Lemma files_to_update_NoDup : NoDup files_to_update.
Proof. unfold files_to_update. by compute_done. Qed.

Lemma rewritten_regular f n : regular n -> regular (rewritten f n).
Proof. intros [c ->]. by eexists. Qed.

Lemma rewritten_None f : rewritten f None = None.
Proof. reflexivity. Qed.

Lemma rewritten_accessible f n : accessible (rewritten f n) = accessible n.
Proof. by destruct n as [[[c|] [|]|]|]. Qed.

Lemma examined_In f l p : In p (examined f l) -> In p l.
Proof.
  induction l as [|x l IH]; [done|]. simpl.
  destruct (accessible (f !! x)); [|done].
  intros [->|H]; [by left|right; auto].
Qed.

Lemma examined_ext f1 f2 l :
  (forall p, In p l -> f1 !! p = f2 !! p) ->
  examined f1 l = examined f2 l
  /\ forallb (fun p => accessible (f1 !! p)) l
     = forallb (fun p => accessible (f2 !! p)) l.
Proof.
  induction l as [|x l IH]; intros H; [done|]. simpl.
  rewrite (H x) by (by left).
  destruct IH as [-> ->]; [intros p Hp; apply H; by right|done].
Qed.

Lemma examined_all f l :
  (forall p, In p l -> f !! p <> Some NoAccess) ->
  examined f l = l /\ forallb (fun p => accessible (f !! p)) l = true.
Proof.
  induction l as [|x l IH]; intros H; [done|]. simpl.
  assert (Hx : accessible (f !! x) = true).
  { specialize (H x (or_introl eq_refl)). by destruct (f !! x) as [[]|]. }
  rewrite Hx. destruct IH as [-> ->]; [intros p Hp; apply H; by right|done].
Qed.

(** One round of the first loop on a path that can be examined: the
    outcome is written, and only the file at [path] can change. *)
Lemma process_file_step replacements path w :
  accessible (fs w !! path) = true ->
  exists w',
    bind (path_exists path)
      (fun present =>
         if present then replace_in_file path replacements
         else print (FileNotFound path)) w
    = (Ok tt, w')
    /\ stdout w'
       = stdout w
         ++ [outcome_of (replace_items (items replacements)) path (fs w !! path)]
    /\ stdin w' = stdin w
    /\ forall p,
         fs w' !! p
         = if decide (p = path)
           then rewritten (replace_items (items replacements)) (fs w !! p)
           else fs w !! p.
Proof.
  intros Ha.
  assert (Hother : forall (f : gmap string node) n p,
             f !! path = Some n ->
             (if decide (p = path) then Some n else f !! p) = f !! p).
  { intros f n p Hf. by destruct (decide (p = path)) as [->|]. }
  destruct (fs w !! path) as [[d wr|]|] eqn:E; [|done|].
  - rewrite (bind_ok _ _ w true w) by (unfold path_exists; by rewrite E).
    destruct d as [c|], wr.
    + pose proof (replace_in_file_regular w path replacements c E) as R.
      cbv zeta in R. rewrite R. unfold outcome_of, succeeds, rewritten.
      cbv zeta.
      set (r := replace_items (items replacements) (universal_newlines c)).
      destruct (encodable r) eqn:Henc; eexists; (split; [reflexivity|]);
        repeat split; intros p; simpl;
        (destruct (decide (p = path)) as [->|Hne];
         [rewrite lookup_insert_eq, E; fold r; by rewrite Henc
         |by rewrite lookup_insert_ne]).
    + exists (emit (ErrorUpdating path IOFailure) w). split.
      { unfold replace_in_file, try_except, bind, read_text, write_text, print.
        rewrite E. cbn beta iota. by rewrite E. }
      repeat split. intros p. simpl.
      destruct (decide (p = path)) as [->|]; by rewrite ?E.
    + exists (emit (ErrorUpdating path IOFailure) w). split.
      { unfold replace_in_file, try_except, bind, read_text, print.
        by rewrite E. }
      repeat split. intros p. simpl.
      destruct (decide (p = path)) as [->|]; by rewrite ?E.
    + exists (emit (ErrorUpdating path IOFailure) w). split.
      { unfold replace_in_file, try_except, bind, read_text, print.
        by rewrite E. }
      repeat split. intros p. simpl.
      destruct (decide (p = path)) as [->|]; by rewrite ?E.
  - rewrite (bind_ok _ _ w false w) by (unfold path_exists; by rewrite E).
    exists (emit (FileNotFound path) w). repeat split. intros p. simpl.
    destruct (decide (p = path)) as [->|]; by rewrite ?E.
Qed.

(** A path that cannot be examined makes [exists()] raise, outside any
    [try]. *)
Lemma process_file_denied replacements path w :
  accessible (fs w !! path) = false ->
  bind (path_exists path)
    (fun present =>
       if present then replace_in_file path replacements
       else print (FileNotFound path)) w
  = (Raise IOFailure, w).
Proof.
  intros Ha. apply bind_raise. unfold path_exists.
  by destruct (fs w !! path) as [[]|].
Qed.

Lemma process_files replacements l :
  NoDup l ->
  forall w, exists w',
    for_each l
      (fun file_path =>
         bind (path_exists file_path)
           (fun present =>
              if present then replace_in_file file_path replacements
              else print (FileNotFound file_path))) w
    = (if forallb (fun p => accessible (fs w !! p)) l
       then Ok tt else Raise IOFailure, w')
    /\ stdout w'
       = stdout w
         ++ List.map
              (fun p =>
                 outcome_of (replace_items (items replacements)) p (fs w !! p))
              (examined (fs w) l)
    /\ stdin w' = stdin w
    /\ forall p,
         fs w' !! p
         = if decide (p ∈ examined (fs w) l)
           then rewritten (replace_items (items replacements)) (fs w !! p)
           else fs w !! p.
Proof.
  induction 1 as [|x l Hx Hl IH]; intros w.
  - exists w. simpl. rewrite app_nil_r. repeat split.
  - cbn [for_each forallb examined].
    destruct (accessible (fs w !! x)) eqn:Ha.
    + destruct (process_file_step replacements x w Ha)
        as (w1 & E1 & O1 & I1 & F1).
      destruct (IH w1) as (w' & E & O & I & F).
      assert (Hsame : forall p, In p l -> fs w1 !! p = fs w !! p).
      { intros p Hp. rewrite F1. rewrite decide_False; [done|].
        intros ->. by apply Hx, list_elem_of_In. }
      destruct (examined_ext (fs w1) (fs w) l Hsame) as [Ex Fa].
      rewrite Ex in O, F. rewrite Fa in E.
      exists w'. rewrite (bind_ok _ _ _ _ _ E1). cbn [andb].
      split; [exact E|]. split; [|split].
      * rewrite O, O1, <- app_assoc. f_equal. simpl. f_equal.
        apply map_ext_in. intros p Hp. by rewrite Hsame by eauto using examined_In.
      * by rewrite I.
      * intros p. rewrite F, F1.
        destruct (decide (p = x)) as [->|Hne].
        -- rewrite (decide_False (P := x ∈ examined (fs w) l)).
           ++ rewrite decide_True; [done|]. apply list_elem_of_here.
           ++ intros Hin%list_elem_of_In%examined_In. by apply Hx, list_elem_of_In.
        -- destruct (decide (p ∈ examined (fs w) l)) as [Hin|Hout].
           ++ rewrite decide_True; [done|]. by apply list_elem_of_further.
           ++ rewrite decide_False; [done|].
              intros [?|?]%elem_of_cons; done.
    + rewrite (bind_raise _ _ _ _ _ (process_file_denied replacements x w Ha)).
      exists w. cbn [andb]. simpl. rewrite app_nil_r. repeat split.
Qed.

Lemma process_each_file_effect replacements w :
  exists w',
    process_each_file replacements w
    = (if forallb (fun p => accessible (fs w !! p)) files_to_update
       then Ok tt else Raise IOFailure, w')
    /\ stdout w'
       = stdout w
         ++ List.map
              (fun p =>
                 outcome_of (replace_items (items replacements)) p (fs w !! p))
              (examined (fs w) files_to_update)
    /\ stdin w' = stdin w
    /\ forall p,
         fs w' !! p
         = if decide (p ∈ examined (fs w) files_to_update)
           then rewritten (replace_items (items replacements)) (fs w !! p)
           else fs w !! p.
Proof. exact (process_files replacements _ files_to_update_NoDup w). Qed.


(** A report: [mkdocs.yml] absent, [LICENSE] read-only, the text for
    [docs/index.md] not encodable, [README.md] in order. *)
Example main_pass_report :
  let w :=
    World (<["README.md"%string := Node (Some (lit "{YEAR}")) true]>
           (<["LICENSE"%string := Node (Some (lit "{YEAR}")) false]>
           (<["docs/index.md"%string := Node (Some (lit "by {AUTHOR}")) true]>
              ∅)))
      (lit "demo") 2026 [] [] in
  let w' :=
    (process_each_file
       [(lit "{YEAR}", lit "2030"); (lit "{AUTHOR}", [0xDCFF%N])] w).2 in
  stdout w'
  = [ FileNotFound "pyproject.toml"; FileNotFound "mkdocs.yml";
      Updated "README.md"; ErrorUpdating "LICENSE" IOFailure;
      ErrorUpdating "docs/index.md" IOFailure;
      FileNotFound ".github/ISSUE_TEMPLATE/bug_report.md";
      FileNotFound ".github/ISSUE_TEMPLATE/feature_request.md" ]
  /\ fs w' !! "README.md"%string = Some (Node (Some (lit "2030")) true)
  /\ fs w' !! "LICENSE"%string = Some (Node (Some (lit "{YEAR}")) false)
  /\ fs w' !! "docs/index.md"%string = Some (Node (Some []) true).
Proof. vm_compute. repeat split. Qed.

(** A target that cannot be examined ends the pass where it stands. *)
Example main_pass_stopped :
  let w :=
    World (<["README.md"%string := NoAccess]>
           (<["LICENSE"%string := Node (Some (lit "{YEAR}")) true]> ∅))
      (lit "demo") 2026 [] [] in
  let r := process_each_file [(lit "{YEAR}", lit "2030")] w in
  r.1 = Raise IOFailure
  /\ stdout r.2 = [ FileNotFound "pyproject.toml"; FileNotFound "mkdocs.yml" ]
  /\ fs r.2 !! "LICENSE"%string = Some (Node (Some (lit "{YEAR}")) true).
Proof. vm_compute. repeat split. Qed.

(** One round of the second loop: it returns when the path is absent
    or the file is rewritten, and raises otherwise. *)
Lemma repository_url_step config github_org package_name path w :
  config !! "github_org"%string = Some github_org ->
  config !! "package_name"%string = Some package_name ->
  let g := fun c =>
    replace c (lit "<repository-url>")
      (repository_url github_org package_name) in
  exists w',
    bind (path_exists path)
      (fun present =>
         if present then
           bind (read_text path) (fun content =>
           bind (getitem config "github_org") (fun github_org =>
           bind (getitem config "package_name") (fun package_name =>
             write_text path
               (replace content (lit "<repository-url>")
                  (lit "https://github.com/" ++ github_org ++ lit "/"
                   ++ package_name)))))
         else ret tt) w
    = (if succeeds g (fs w !! path) then Ok tt else Raise IOFailure, w')
    /\ stdout w' = stdout w
    /\ stdin w' = stdin w
    /\ forall p,
         fs w' !! p
         = if decide (p = path) then rewritten g (fs w !! p) else fs w !! p.
Proof.
  intros Ho Hp g.
  destruct (fs w !! path) as [[d wr|]|] eqn:E.
  - rewrite (bind_ok _ _ w true w) by (unfold path_exists; by rewrite E).
    destruct d as [c|].
    + rewrite (bind_ok _ _ w (universal_newlines c) w)
        by (unfold read_text; by rewrite E).
      unfold getitem. rewrite Ho, Hp.
      rewrite (bind_ok _ _ w github_org w) by reflexivity.
      rewrite (bind_ok _ _ w package_name w) by reflexivity.
      unfold write_text. rewrite E. unfold succeeds, rewritten.
      change (replace (universal_newlines c) (lit "<repository-url>")
                (lit "https://github.com/" ++ github_org ++ lit "/"
                 ++ package_name))
        with (g (universal_newlines c)).
      cbv zeta. set (r := g (universal_newlines c)).
      destruct wr.
      * destruct (encodable r) eqn:Henc;
          eexists; (split; [reflexivity|]); repeat split; intros p; simpl;
          (destruct (decide (p = path)) as [->|Hne];
           [rewrite lookup_insert_eq, E; fold r; by rewrite Henc
           |by rewrite lookup_insert_ne]).
      * exists w. repeat split. intros p.
        destruct (decide (p = path)) as [->|]; by rewrite ?E.
    + exists w. split.
      { apply bind_raise. unfold read_text. by rewrite E. }
      repeat split. intros p.
      destruct (decide (p = path)) as [->|]; by rewrite ?E.
  - exists w. split.
    { apply bind_raise. unfold path_exists. by rewrite E. }
    repeat split. intros p.
    destruct (decide (p = path)) as [->|]; by rewrite ?E.
  - rewrite (bind_ok _ _ w false w) by (unfold path_exists; by rewrite E).
    exists w. repeat split. intros p.
    destruct (decide (p = path)) as [->|]; by rewrite ?E.
Qed.

Lemma repository_url_pass config github_org package_name w :
  config !! "github_org"%string = Some github_org ->
  config !! "package_name"%string = Some package_name ->
  let g := fun c =>
    replace c (lit "<repository-url>")
      (repository_url github_org package_name) in
  let readme := fs w !! "README.md"%string in
  let docs := fs w !! "docs/index.md"%string in
  exists w',
    update_repository_url config w
    = (if succeeds g readme && succeeds g docs then Ok tt
       else Raise IOFailure, w')
    /\ stdout w' = stdout w
    /\ stdin w' = stdin w
    /\ fs w' !! "README.md"%string = rewritten g readme
    /\ fs w' !! "docs/index.md"%string
       = (if succeeds g readme then rewritten g docs else docs)
    /\ forall p,
         p <> "README.md"%string -> p <> "docs/index.md"%string ->
         fs w' !! p = fs w !! p.
Proof.
  intros Ho Hp g readme docs.
  destruct (repository_url_step config _ _ "README.md" w Ho Hp)
    as (w1 & E1 & O1 & I1 & F1).
  fold g in E1, F1. fold readme in E1.
  unfold update_repository_url. cbn [for_each].
  destruct (succeeds g readme) eqn:S1.
  - destruct (repository_url_step config _ _ "docs/index.md" w1 Ho Hp)
      as (w2 & E2 & O2 & I2 & F2).
    fold g in E2, F2.
    assert (D : fs w1 !! "docs/index.md"%string = docs).
    { by rewrite F1, decide_False. }
    rewrite D in E2.
    exists w2. rewrite (bind_ok _ _ _ _ _ E1). cbn [andb].
    split.
    { destruct (succeeds g docs).
      - by rewrite (bind_ok _ _ _ _ _ E2).
      - by rewrite (bind_raise _ _ _ _ _ E2). }
    split; [congruence|]. split; [congruence|]. split; [|split].
    + rewrite F2, decide_False by done. by rewrite F1, decide_True.
    + rewrite F2, decide_True by done. by rewrite D.
    + intros p H1 H2. by rewrite F2, decide_False, F1, decide_False.
  - exists w1. rewrite (bind_raise _ _ _ _ _ E1). cbn [andb].
    split; [done|]. split; [done|]. split; [done|]. split; [|split].
    + by rewrite F1, decide_True.
    + by rewrite F1, decide_False.
    + intros p H1 H2. by rewrite F1, decide_False.
Qed.

Lemma setup_project_passes
    config project_name package_name github_org author_name author_email year w :
  config !! "project_name"%string = Some project_name ->
  config !! "package_name"%string = Some package_name ->
  config !! "github_org"%string = Some github_org ->
  config !! "author_name"%string = Some author_name ->
  config !! "author_email"%string = Some author_email ->
  config !! "year"%string = Some year ->
  setup_project config w
  = bind (process_each_file
            (replacements_of project_name package_name github_org
               author_name author_email year))
      (fun _ => bind (update_repository_url config)
         (fun _ => print (SetupComplete project_name))) w.
Proof.
  intros H1 H2 H3 H4 H5 H6.
  unfold setup_project, getitem. rewrite H1, H2, H3, H4, H5, H6.
  reflexivity.
Qed.

(** C5, as amended.  [setup_project] runs the main pass and then a
    second pass, which nothing follows but the closing message.  The
    second pass goes through [README.md] and then [docs/index.md] and
    has no [try].  A path that is absent is passed over.  A file that
    is read and written successfully holds afterwards its text, as
    read in text mode from what the main pass left, with every
    occurrence of [<repository-url>] replaced by "https://github.com/",
    the configured [github_org], "/" and the configured
    [package_name].  The first of the two that cannot be examined,
    read or opened for writing, or whose new text cannot be encoded,
    ends the pass with that error: [docs/index.md] is then left as it
    was if the failure was at [README.md].  The pass applies no other
    substitution, touches no other path and writes nothing to the
    terminal. *)
Theorem repository_url_pass_after_main_pass
    (w1 : world) (config : gmap string str)
    (project_name package_name github_org author_name author_email year : str) :
  config !! "project_name"%string = Some project_name ->
  config !! "package_name"%string = Some package_name ->
  config !! "github_org"%string = Some github_org ->
  config !! "author_name"%string = Some author_name ->
  config !! "author_email"%string = Some author_email ->
  config !! "year"%string = Some year ->
  let url := lit "https://github.com/" ++ github_org ++ lit "/" ++ package_name in
  let g := fun c => replace c (lit "<repository-url>") url in
  let readme := fs w1 !! "README.md"%string in
  let docs := fs w1 !! "docs/index.md"%string in
  (exists w2,
     update_repository_url config w1
     = (if succeeds g readme && succeeds g docs then Ok tt
        else Raise IOFailure, w2)
     /\ fs w2 !! "README.md"%string = rewritten g readme
     /\ fs w2 !! "docs/index.md"%string
        = (if succeeds g readme then rewritten g docs else docs)
     /\ (forall p,
           p <> "README.md"%string -> p <> "docs/index.md"%string ->
           fs w2 !! p = fs w1 !! p)
     /\ stdout w2 = stdout w1)
  /\ (forall c,
        readme = Some (Node (Some c) true) ->
        encodable (g (universal_newlines c)) = true ->
        rewritten g readme
        = Some (Node (Some (replace (universal_newlines c)
                              (lit "<repository-url>") url)) true))
  /\ (forall w,
        setup_project config w
        = bind (process_each_file
                  (replacements_of project_name package_name github_org
                     author_name author_email year))
            (fun _ => bind (update_repository_url config)
               (fun _ => print (SetupComplete project_name))) w).
Proof.
  intros H1 H2 H3 H4 H5 H6 url g readme docs.
  split; [|split].
  - destruct (repository_url_pass config github_org package_name w1 H3 H2)
      as (w2 & E & O & _ & F1 & F2 & F).
    exists w2. split; [exact E|]. split; [exact F1|]. split; [exact F2|].
    split; [exact F|exact O].
  - intros c -> Henc. unfold rewritten. cbv zeta. by rewrite Henc.
  - intros w. by apply setup_project_passes.
Qed.

Lemma repository_url_pass_after_main_pass_witness :
  let w :=
    World (<["README.md"%string :=
               Node (Some (lit "{PROJECT_NAME}: <repository-url>")) true]> ∅)
      (lit "demo") 2026 [] [] in
  let config := config_of (lit "demo") 2026 [] (lit "pkg") (lit "org") [] [] [] in
  exists w',
    setup_project config w = (Ok tt, w')
    /\ fs w' !! "README.md"%string
       = Some (Node (Some (lit "demo: https://github.com/org/pkg")) true)
    /\ fs w' !! "docs/index.md"%string = None.
Proof.
  intros w config.
  destruct (config_of_lookups (lit "demo") 2026 [] (lit "pkg") (lit "org") [] [] [])
    as (H1 & H2 & H3 & H4 & H5 & H6).
  destruct (process_each_file_effect
              (replacements_of (lit "demo") (lit "pkg") (lit "org")
                 (lit "Ethereum Foundation") (lit "security@ethereum.org")
                 (lit "2026")) w) as (w1 & E1 & _ & _ & G1).
  destruct (repository_url_pass_after_main_pass w1 config _ _ _ _ _ _
              H1 H2 H3 H4 H5 H6) as ((w2 & E2 & F1 & F2 & _) & _ & E).
  exists (emit (SetupComplete (lit "demo")) w2).
  assert (R : fs w1 !! "README.md"%string
              = Some (Node (Some (lit "demo: <repository-url>")) true)).
  { rewrite G1. vm_compute. reflexivity. }
  assert (D : fs w1 !! "docs/index.md"%string = None).
  { rewrite G1. vm_compute. reflexivity. }
  rewrite R, D in E2, F2. rewrite R in F1.
  split; [|split].
  - rewrite (E w). rewrite (bind_ok _ _ _ _ _ E1).
    by rewrite (bind_ok _ _ _ _ _ E2).
  - simpl. rewrite F1. vm_compute. reflexivity.
  - simpl. rewrite F2. vm_compute. reflexivity.
Defined.

(** C5 as stated fails when [README.md] is present but cannot be
    read: the second pass raises there, and [docs/index.md], present
    and in order, keeps its [<repository-url>]. *)
Lemma repository_url_pass_stops_at_readme :
  let w :=
    World (<["README.md"%string := Node None true]>
           (<["docs/index.md"%string :=
                Node (Some (lit "see <repository-url>")) true]> ∅))
      (lit "demo") 2026 [] [] in
  let config := config_of (lit "demo") 2026 [] [] [] [] [] [] in
  update_repository_url config w = (Raise IOFailure, w)
  /\ (setup_project config w).1 = Raise IOFailure
  /\ fs (setup_project config w).2 !! "docs/index.md"%string
     = Some (Node (Some (lit "see <repository-url>")) true)
  /\ contains (lit "<repository-url>") (lit "see <repository-url>") = true.
Proof. vm_compute. repeat split. Qed.

(** ** Runs of [main] on concrete worlds *)

Lemma guard_refuses_witness :
  let w := World configured (lit "demo") 2026 [Line []] [] in
  main w = (Raise (SystemExit 1), emit AlreadyConfigured w)
  /\ fs (main w).2 = configured
  /\ stdin (main w).2 = [Line []].
Proof.
  intros w.
  destruct (guard_refuses w) as (m & E & Hm & _ & F & I & _).
  { right. exists (lit "name = 'acme-specs'"), true.
    split; vm_compute; reflexivity. }
  split; [|split; [exact F|exact I]].
  rewrite E. destruct Hm as [-> | ->]; [|reflexivity].
  exfalso. revert E. vm_compute. discriminate.
Defined.

Lemma declined_confirmation_cancels_witness :
  let w :=
    World template (lit "demo") 2026 (repeat (Line []) 6 ++ [Line (lit " No ")]) [] in
  exists w',
    main w = (Ok tt, w')
    /\ exit_status (main w).1 = 0%Z
    /\ fs w' = template.
Proof.
  intros w.
  destruct (declined_confirmation_cancels w [] [] [] [] [] [] (lit " No ") [])
    as (w' & E & S & F & _).
  - exists (lit "name = '{PACKAGE_NAME}'"), true.
    split; vm_compute; reflexivity.
  - reflexivity.
  - vm_compute. reflexivity.
  - exists w'. split; [exact E|]. split; [exact S|exact F].
Defined.

Lemma interrupt_exits_zero_witness :
  let w :=
    World template (lit "demo") 2026 [Line (lit "My Specs"); CtrlC; Line []] [] in
  exists w',
    main w = (Raise (SystemExit 0), w')
    /\ exit_status (main w).1 = 0%Z
    /\ fs w' = template.
Proof.
  intros w.
  destruct (interrupt_exits_zero w [lit "My Specs"] [Line []])
    as (w' & E & S & F & _).
  - exists (lit "name = '{PACKAGE_NAME}'"), true.
    split; vm_compute; reflexivity.
  - reflexivity.
  - simpl. lia.
  - exists w'. split; [exact E|]. split; [exact S|exact F].
Defined.

(** A full run: every prompt answered with the empty line in a
    directory named "My Cool App!". *)
Example main_accepting_defaults :
  let w :=
    World template (lit "My Cool App!") 2026 (repeat (Line []) 7) [] in
  exit_status (main w).1 = 0%Z
  /\ fs (main w).2 !! "pyproject.toml"%string
     = Some (Node (Some (lit "name = 'my-cool-app-'")) true).
Proof. vm_compute. split; reflexivity. Qed.

(** Standard input ending before the confirmation is an [EOFError],
    which the last [except] clause turns into status 1. *)
Example main_end_of_input :
  let w := World template (lit "demo") 2026 (repeat (Line []) 6) [] in
  exit_status (main w).1 = 1%Z /\ fs (main w).2 = template.
Proof. vm_compute. split; reflexivity. Qed.

(** * Further properties *)

(** ** Stripping and sanitising *)

Lemma lstrip_blank s : blank s -> lstrip s = [].
Proof. induction 1 as [|c t Hc _ IH]; [done|]. simpl. by rewrite Hc. Qed.

Lemma strip_blank s : blank s -> strip s = [].
Proof. intros H. unfold strip, rstrip. by rewrite (lstrip_blank s H). Qed.

(** [lstrip] drops a run of whitespace and stops at the first other
    character. *)
Lemma lstrip_split s :
  exists pre,
    s = pre ++ lstrip s /\ blank pre
    /\ forall c, head (lstrip s) = Some c -> isspace c = false.
Proof.
  induction s as [|c t (pre & E & B & H)].
  - exists []. repeat split; [constructor|discriminate].
  - simpl. destruct (isspace c) eqn:Hc.
    + exists (c :: pre). repeat split; [by rewrite E at 1|by constructor|done].
    + exists []. repeat split; [constructor|]. intros ? [= <-]. done.
Qed.

Lemma head_app_nonempty {A} (l k : list A) : l <> [] -> head (l ++ k) = head l.
Proof. by destruct l. Qed.

Lemma last_rev {A} (l : list A) : last (rev l) = head l.
Proof. destruct l as [|a l]; [done|]. simpl. apply last_snoc. Qed.

Lemma strip_no_outer_space s : no_outer_space (strip s).
Proof.
  unfold strip, rstrip.
  destruct (lstrip_split s) as (_ & _ & _ & Hu).
  destruct (lstrip_split (rev (lstrip s))) as (pre & E & _ & Hv).
  set (u := lstrip s) in *. set (v := lstrip (rev u)) in *.
  split; intros c Hc.
  - apply Hu.
    assert (Eu : u = rev v ++ rev pre).
    { rewrite <- rev_app_distr, <- E. by rewrite rev_involutive. }
    rewrite Eu, head_app_nonempty; [done|]. by intros Hnil; rewrite Hnil in Hc.
  - apply Hv. by rewrite <- last_rev.
Qed.

Ltac bool_to_arith :=
  repeat match goal with
  | H : _ && _ = true |- _ => apply andb_true_iff in H as [? ?]
  | H : _ || _ = true |- _ => apply orb_true_iff in H as [?|?]
  | H : _ && _ = false |- _ => apply andb_false_iff in H as [?|?]
  | H : _ || _ = false |- _ => apply orb_false_iff in H as [? ?]
  | H : negb _ = true |- _ => apply negb_true_iff in H
  | H : negb _ = false |- _ => apply negb_false_iff in H
  | H : (_ <=? _)%N = true |- _ => apply N.leb_le in H
  | H : (_ <=? _)%N = false |- _ => apply N.leb_gt in H
  | H : (_ =? _)%N = true |- _ => apply N.eqb_eq in H
  | H : (_ =? _)%N = false |- _ => apply N.eqb_neq in H
  end.

(** No code point of a lowercased text is an ASCII capital. *)
Lemma lower_cp_no_capital c d :
  In d (lower_cp c) -> ~ (0x41 <= d <= 0x5A)%N.
Proof.
  unfold lower_cp. intros Hd.
  repeat case_match; simpl in Hd; bool_to_arith; intuition lia.
Qed.

Lemma in_lowercase_class_iff d :
  in_lowercase_class d = true
  <-> in_class d = true /\ ~ (0x41 <= d <= 0x5A)%N.
Proof.
  unfold in_class, in_lowercase_class.
  rewrite !orb_true_iff, !andb_true_iff, !N.leb_le, !N.eqb_eq. lia.
Qed.

Lemma lower_cp_lowercase_class d :
  in_lowercase_class d = true -> lower_cp d = [d].
Proof.
  unfold in_lowercase_class, lower_cp. intros Hd.
  repeat case_match; try reflexivity; exfalso; bool_to_arith; lia.
Qed.

Lemma lower_lowercase_class t :
  Forall (fun d => in_lowercase_class d = true) t -> lower t = t.
Proof.
  unfold lower. induction 1 as [|d t Hd _ IH]; [done|].
  cbn [flat_map]. by rewrite IH, (lower_cp_lowercase_class d Hd).
Qed.

Lemma re_sub_in_class t :
  Forall (fun d => in_class d = true) t ->
  re_sub_not_in_class (lit "-") t = t.
Proof.
  unfold re_sub_not_in_class. induction 1 as [|d t Hd _ IH]; [done|].
  cbn [flat_map]. by rewrite IH, Hd.
Qed.

Lemma default_package_name_lowercase_class s :
  Forall (fun d => in_lowercase_class d = true) (default_package_name s).
Proof.
  unfold default_package_name, re_sub_not_in_class.
  apply List.Forall_forall. intros d Hd.
  apply in_flat_map in Hd as (c & Hc & Hd).
  destruct (in_class c) eqn:Ec.
  - destruct Hd as [<-|[]]. apply in_lowercase_class_iff. split; [done|].
    unfold lower in Hc. apply in_flat_map in Hc as (c0 & _ & Hc).
    by apply (lower_cp_no_capital c0).
  - destruct Hd as [<-|[]]. reflexivity.
Qed.

Lemma lower_cp_ascii_length c : is_ascii c -> length (lower_cp c) = 1.
Proof.
  unfold is_ascii, lower_cp. intros Hc.
  repeat case_match; try reflexivity; exfalso; bool_to_arith; lia.
Qed.

(** X1.  The default package name is made of the characters
    [[a-z0-9_-]] only; sanitising it again changes nothing; and for a
    project name of ASCII characters it has as many characters as the
    project name. *)
Theorem default_package_name_shape (project_name : str) :
  Forall (fun d => in_lowercase_class d = true)
    (default_package_name project_name)
  /\ default_package_name (default_package_name project_name)
     = default_package_name project_name
  /\ (Forall is_ascii project_name ->
      length (default_package_name project_name) = length project_name).
Proof.
  pose proof (default_package_name_lowercase_class project_name) as H.
  split; [exact H|]. split.
  - unfold default_package_name at 1.
    rewrite (lower_lowercase_class _ H). apply re_sub_in_class.
    eapply Forall_impl; [exact H|].
    intros d Hd. by apply in_lowercase_class_iff in Hd as [? _].
  - clear H. unfold default_package_name, re_sub_not_in_class, lower.
    induction 1 as [|c t Hc _ IH]; [done|].
    cbn [flat_map]. rewrite flat_map_app, length_app, IH.
    cbn [length]. f_equal.
    pose proof (lower_cp_ascii_length c Hc) as L.
    destruct (lower_cp c) as [|d [|? ?]]; try discriminate.
    simpl. by destruct (in_class d).
Qed.

(** ** More on [get_user_input] *)

Lemma unread_suffix n i :
  exists k, k <= n /\ unread n i = drop k i.
Proof.
  revert i. induction n as [|n IH]; intros i.
  - exists 0. split; [lia|reflexivity].
  - destruct i as [|[a|] rest]; simpl.
    + exists 0. split; [lia|reflexivity].
    + destruct (IH rest) as (k & Hk & E). exists (S k). split; [lia|exact E].
    + exists 1. split; [lia|reflexivity].
Qed.

Lemma get_user_input_outcome w :
  match answers_raise 6 (stdin w) with
  | Some e => (get_user_input w).1 = Raise e
  | None => exists config, (get_user_input w).1 = Ok config
  end
  /\ stdin (get_user_input w).2 = unread 6 (stdin w).
Proof.
  destruct w as [f c y i o].
  unfold get_user_input, bind, print, input, path_cwd_name,
    datetime_now_year, emit, set_stdin, ret, getitem.
  cbn [stdin fs cwd_name now_year stdout].
  do 6 (destruct i as [|[?|] i];
        [cbn; rewrite ?lookup_insert_eq; cbn; split; reflexivity
        | |cbn; rewrite ?lookup_insert_eq; cbn; split; reflexivity]).
  cbn. rewrite ?lookup_insert_eq. cbn. split; [eexists|]; reflexivity.
Qed.

(** X2.  [get_user_input] reads at most six answers and changes no
    file.  It returns a configuration when the first six events at the
    terminal are lines; otherwise it raises at the first event that is
    not one: [KeyboardInterrupt] for Ctrl-C, [EOFError] when standard
    input ends. *)
Theorem get_user_input_reads_six (w : world) :
  let r := get_user_input w in
  fs r.2 = fs w
  /\ (exists k, k <= 6 /\ stdin r.2 = drop k (stdin w))
  /\ match answers_raise 6 (stdin w) with
     | Some e => r.1 = Raise e
     | None => exists config, r.1 = Ok config
     end.
Proof.
  intros r. destruct (get_user_input_outcome w) as [H1 H2].
  split; [apply keeps_fs_get_user_input|]. split; [|exact H1].
  unfold r. rewrite H2. apply unread_suffix.
Qed.

(** X3.  Answers made of whitespace only count as empty: every key then
    receives its default, the package name being derived from the
    working directory's name. *)
Theorem blank_answers_give_defaults
    (w : world) (a1 a2 a3 a4 a5 a6 : str) (rest : list event) :
  stdin w
  = Line a1 :: Line a2 :: Line a3 :: Line a4 :: Line a5 :: Line a6 :: rest ->
  Forall blank [a1; a2; a3; a4; a5; a6] ->
  exists config w',
    get_user_input w = (Ok config, w')
    /\ config !! "project_name"%string = Some (cwd_name w)
    /\ config !! "package_name"%string
       = Some (default_package_name (cwd_name w))
    /\ config !! "github_org"%string = Some (lit "ethereum")
    /\ config !! "author_name"%string = Some (lit "Ethereum Foundation")
    /\ config !! "author_email"%string = Some (lit "security@ethereum.org")
    /\ config !! "year"%string = Some (str_of_N (now_year w)).
Proof.
  intros Hin Hb.
  repeat match goal with
         | H : Forall blank (_ :: _) |- _ =>
             apply Forall_cons in H as [?%strip_blank H]
         end.
  eexists _, _. split; [by apply get_user_input_lines|].
  destruct (config_of_lookups (cwd_name w) (now_year w) a1 a2 a3 a4 a5 a6)
    as (L1 & L2 & L3 & L4 & L5 & L6).
  repeat match goal with
         | E : strip _ = [] |- _ => rewrite E in *; clear E
         end.
  by repeat split.
Qed.

Lemma blank_answers_give_defaults_witness :
  let w :=
    World ∅ (lit "My Specs") 2026 (repeat (Line (lit "  ")) 6) [] in
  exists config w',
    get_user_input w = (Ok config, w')
    /\ config !! "project_name"%string = Some (lit "My Specs")
    /\ config !! "package_name"%string = Some (lit "my-specs").
Proof.
  intros w.
  destruct (blank_answers_give_defaults w (lit "  ") (lit "  ") (lit "  ")
              (lit "  ") (lit "  ") (lit "  ") [] eq_refl)
    as (config & w' & E & H1 & H2 & _).
  - repeat constructor.
  - exists config, w'. split; [exact E|]. split; [exact H1|exact H2].
Defined.

(** X4.  An answer that is not blank is stored stripped: the value kept
    under each key is the answer without its leading and trailing
    whitespace, and neither begins nor ends with a whitespace
    character. *)
Theorem answers_are_stored_stripped
    (w : world) (a1 a2 a3 a4 a5 a6 : str) (rest : list event) :
  stdin w
  = Line a1 :: Line a2 :: Line a3 :: Line a4 :: Line a5 :: Line a6 :: rest ->
  Forall (fun a => strip a <> []) [a1; a2; a3; a4; a5; a6] ->
  exists config w',
    get_user_input w = (Ok config, w')
    /\ List.map (fun k => config !! k) config_keys
       = List.map (fun a => Some (strip a)) [a1; a2; a3; a4; a5; a6]
    /\ forall k v, In k config_keys -> config !! k = Some v ->
         no_outer_space v.
Proof.
  intros Hin Hne.
  eexists _, _. split; [by apply get_user_input_lines|].
  destruct (config_of_lookups (cwd_name w) (now_year w) a1 a2 a3 a4 a5 a6)
    as (L1 & L2 & L3 & L4 & L5 & L6).
  assert (P : forall a d, strip a <> [] -> py_or (strip a) d = strip a).
  { intros a d. by destruct (strip a). }
  repeat match goal with
         | H : Forall _ (_ :: _) |- _ => apply Forall_cons in H as [? H]
         end.
  rewrite !P in * by done.
  split.
  - simpl. by rewrite L1, L2, L3, L4, L5, L6.
  - intros k v Hk Hv. simpl in Hk.
    destruct Hk as [<-|[<-|[<-|[<-|[<-|[<-|[]]]]]]];
      [rewrite L1 in Hv|rewrite L2 in Hv|rewrite L3 in Hv
      |rewrite L4 in Hv|rewrite L5 in Hv|rewrite L6 in Hv];
      injection Hv as <-; apply strip_no_outer_space.
Qed.

Lemma answers_are_stored_stripped_witness :
  let w :=
    World ∅ (lit "demo") 2026 (repeat (Line (lit " acme ")) 6) [] in
  exists config w',
    get_user_input w = (Ok config, w')
    /\ config !! "github_org"%string = Some (lit "acme").
Proof.
  intros w.
  destruct (answers_are_stored_stripped w (lit " acme ") (lit " acme ")
              (lit " acme ") (lit " acme ") (lit " acme ") (lit " acme ") []
              eq_refl)
    as (config & w' & E & H & _).
  - repeat constructor; discriminate.
  - exists config, w'. split; [exact E|].
    simpl in H. by injection H as _ _ -> _ _ _.
Defined.

(** ** More on [main] *)

Lemma answers_raise_lines n answers :
  length answers < n -> answers_raise n (List.map Line answers) = Some EOFError.
Proof.
  revert answers. induction n as [|n IH]; intros answers H; [lia|].
  destruct answers as [|a answers]; [done|]. simpl in *. apply IH. lia.
Qed.

Lemma main_try_end_of_input w answers :
  stdin w = List.map Line answers ->
  length answers <= 6 ->
  exists w', main_try w = (Raise EOFError, w') /\ fs w' = fs w.
Proof.
  intros Hin Hlen.
  destruct (decide (length answers = 6)) as [H6|Hlt].
  - do 7 (destruct answers as [|? answers]; try discriminate).
    simpl in Hin. rewrite (main_try_collected _ _ _ _ _ _ _ _ Hin).
    eexists. split; reflexivity.
  - destruct (get_user_input_outcome w) as [E _].
    rewrite Hin, answers_raise_lines in E by lia.
    pose proof (keeps_fs_get_user_input w) as F.
    destruct (get_user_input w) as [r w'] eqn:G. simpl in *. subst r.
    exists w'. split; [|exact F].
    unfold main_try. by rewrite (bind_raise _ _ _ _ _ G).
Qed.

(** X5.  When standard input ends at one of the six configuration
    prompts or at the confirmation prompt, the [EOFError] is caught by
    the last [except] clause: the error is reported, the process ends
    with status 1, and every path holds what it held before. *)
Theorem end_of_input_exits_one (w : world) (answers : list str) :
  unconfigured w ->
  stdin w = List.map Line answers ->
  length answers <= 6 ->
  exists w',
    main w = (Raise (SystemExit 1), w')
    /\ exit_status (main w).1 = 1%Z
    /\ fs w' = fs w
    /\ last (stdout w') = Some (ErrorOccurred EOFError).
Proof.
  intros Hu Hin Hlen.
  destruct (main_try_end_of_input w answers Hin Hlen) as (w1 & E & F).
  rewrite (main_unconfigured w Hu). unfold try_except. rewrite E. simpl.
  eexists. split; [reflexivity|]. simpl. repeat split.
  - exact F.
  - apply last_snoc.
Qed.

Lemma end_of_input_exits_one_witness :
  let w := World template (lit "demo") 2026 [Line []; Line (lit "pkg")] [] in
  exists w',
    main w = (Raise (SystemExit 1), w')
    /\ exit_status (main w).1 = 1%Z
    /\ fs w' = template.
Proof.
  intros w.
  destruct (end_of_input_exits_one w [[]; lit "pkg"]) as (w' & E & S & F & _).
  - exists (lit "name = '{PACKAGE_NAME}'"), true.
    split; vm_compute; reflexivity.
  - reflexivity.
  - simpl. lia.
  - exists w'. split; [exact E|]. split; [exact S|exact F].
Defined.

(** ** More on [setup_project] and [replace_in_file] *)

(** X6.  A configuration that lacks one of the six keys makes
    [setup_project] raise [KeyError] for the first missing key, in the
    order the dictionary of replacements reads them, before any file
    is looked at: the world is left as it was. *)
Theorem setup_project_missing_key
    (config : gmap string str) (w : world) :
  (exists k, In k config_keys /\ config !! k = None) ->
  exists before k after,
    config_keys = before ++ k :: after
    /\ Forall (fun k' => is_Some (config !! k')) before
    /\ config !! k = None
    /\ setup_project config w = (Raise (KeyError k), w).
Proof.
  intros (k0 & Hk0 & Hnone).
  unfold setup_project, getitem, bind, raise, ret, config_keys.
  destruct (config !! "project_name"%string) as [v1|] eqn:E1;
    [|exists [], "project_name"%string; eexists; by repeat split].
  destruct (config !! "package_name"%string) as [v2|] eqn:E2;
    [|exists ["project_name"%string], "package_name"%string; eexists;
      repeat split; [|done..]; by repeat constructor].
  destruct (config !! "github_org"%string) as [v3|] eqn:E3;
    [|exists ["project_name"; "package_name"]%string, "github_org"%string;
      eexists; repeat split; [|done..]; by repeat constructor].
  destruct (config !! "author_name"%string) as [v4|] eqn:E4;
    [|exists ["project_name"; "package_name"; "github_org"]%string,
        "author_name"%string;
      eexists; repeat split; [|done..]; by repeat constructor].
  destruct (config !! "author_email"%string) as [v5|] eqn:E5;
    [|exists ["project_name"; "package_name"; "github_org";
              "author_name"]%string, "author_email"%string;
      eexists; repeat split; [|done..]; by repeat constructor].
  destruct (config !! "year"%string) as [v6|] eqn:E6;
    [|exists ["project_name"; "package_name"; "github_org";
              "author_name"; "author_email"]%string, "year"%string;
      eexists; repeat split; [|done..]; by repeat constructor].
  exfalso. simpl in Hk0.
  destruct Hk0 as [<-|[<-|[<-|[<-|[<-|[<-|[]]]]]]]; congruence.
Qed.

Lemma setup_project_missing_key_witness :
  let w := World template (lit "demo") 2026 [] [] in
  let config : gmap string str :=
    {[ "project_name"%string := lit "Demo" ]} in
  exists k, setup_project config w = (Raise (KeyError k), w).
Proof.
  intros w config.
  destruct (setup_project_missing_key config w)
    as (before & k & after & _ & _ & _ & E).
  - exists "year"%string. split; [simpl; tauto|]. vm_compute. reflexivity.
  - exists k. exact E.
Defined.

(** X7.  [replace_in_file] never raises: it returns after writing
    exactly one line, leaves every other path as it was, and neither
    creates nor removes a file.  Called on a path that does not exist,
    it reports the error and the path still does not exist. *)
Theorem replace_in_file_isolated
    (path : string) (replacements : pydict) (w : world) :
  exists w' m,
    replace_in_file path replacements w = (Ok tt, w')
    /\ stdout w' = stdout w ++ [m]
    /\ (m = Updated path \/ m = ErrorUpdating path IOFailure)
    /\ stdin w' = stdin w
    /\ (forall p, p <> path -> fs w' !! p = fs w !! p)
    /\ (is_Some (fs w' !! path) <-> is_Some (fs w !! path))
    /\ (fs w !! path = None -> m = ErrorUpdating path IOFailure).
Proof.
  assert (Hfail :
    replace_in_file path replacements w
    = (Ok tt, emit (ErrorUpdating path IOFailure) w) ->
    exists w' m,
      replace_in_file path replacements w = (Ok tt, w')
      /\ stdout w' = stdout w ++ [m]
      /\ (m = Updated path \/ m = ErrorUpdating path IOFailure)
      /\ stdin w' = stdin w
      /\ (forall p, p <> path -> fs w' !! p = fs w !! p)
      /\ (is_Some (fs w' !! path) <-> is_Some (fs w !! path))
      /\ (fs w !! path = None -> m = ErrorUpdating path IOFailure)).
  { intros R. eexists _, _. split; [exact R|]. simpl.
    repeat split; auto. }
  destruct (fs w !! path) as [[[c|] wr|]|] eqn:E.
  - destruct wr.
    + pose proof (replace_in_file_regular w path replacements c E) as R.
      cbv zeta in R.
      destruct (encodable _); eexists _, _; (split; [exact R|]); simpl;
        (split; [reflexivity|]); (split; [by (left + right)|]);
        (split; [reflexivity|]);
        (split; [intros p Hp; by rewrite lookup_insert_ne|]);
        rewrite lookup_insert_eq; repeat split; done.
    + apply Hfail.
      unfold replace_in_file, try_except, bind, read_text, write_text, print.
      rewrite E. cbn beta iota. by rewrite E.
  - apply Hfail.
    unfold replace_in_file, try_except, bind, read_text, print. by rewrite E.
  - apply Hfail.
    unfold replace_in_file, try_except, bind, read_text, print. by rewrite E.
  - apply Hfail.
    unfold replace_in_file, try_except, bind, read_text, print. by rewrite E.
Qed.

Lemma replace_items_absent pairs content :
  Forall (fun old => old <> [] /\ contains old content = false)
    (List.map fst pairs) ->
  replace_items pairs content = content.
Proof.
  induction pairs as [|[old new] pairs IH]; [done|].
  intros [[Hne Habs] H]%Forall_cons. simpl.
  rewrite (replace_absent old new Hne content Habs). by apply IH.
Qed.

Lemma replacements_keys_nonempty
    project_name package_name github_org author_name author_email year :
  Forall (fun old => old <> [])
    (List.map fst
       (items (replacements_of project_name package_name github_org
                 author_name author_email year))).
Proof. rewrite replacements_items. simpl. repeat constructor; discriminate. Qed.

Lemma replacements_keys_line_end_free
    project_name package_name github_org author_name author_email year :
  Forall line_end_free
    (List.map fst
       (items (replacements_of project_name package_name github_org
                 author_name author_email year))).
Proof.
  rewrite replacements_items. simpl.
  repeat (apply Forall_cons; split; [repeat constructor; discriminate|]).
  constructor.
Qed.

Lemma encodable_newlines_scan b s :
  encodable s = true -> encodable (newlines_scan b s) = true.
Proof.
  unfold encodable. revert b. induction s as [|c t IH]; intros b; [done|].
  cbn [forallb newlines_scan]. intros [Hc Ht]%andb_true_iff.
  destruct (c =? 13)%N; [cbn [forallb]; by rewrite IH|].
  destruct ((c =? 10)%N && b); [by apply IH|].
  cbn [forallb]. by rewrite Hc, IH.
Qed.

Lemma encodable_universal_newlines s :
  encodable s = true -> encodable (universal_newlines s) = true.
Proof. apply encodable_newlines_scan. Qed.

(** X8.  A readable and writable file of well-formed text in which
    none of the fifteen search strings of the map occurs keeps its
    text, except that CR LF and CR line ends come back as LF: that is
    what [replace_in_file] writes, reporting the file as updated and
    leaving every other path alone.  When the text has no CR, every
    file is exactly as before. *)
Theorem file_without_tokens_unchanged
    (w : world) (path : string) (stored : str)
    (project_name package_name github_org author_name author_email year : str) :
  let replacements :=
    replacements_of project_name package_name github_org
      author_name author_email year in
  fs w !! path = Some (Node (Some stored) true) ->
  encodable stored = true ->
  Forall (fun old => contains old stored = false)
    (List.map fst (items replacements)) ->
  exists w',
    replace_in_file path replacements w = (Ok tt, w')
    /\ fs w' !! path = Some (Node (Some (universal_newlines stored)) true)
    /\ (forall p, p <> path -> fs w' !! p = fs w !! p)
    /\ stdout w' = stdout w ++ [Updated path]
    /\ (Forall (fun d => d <> 13%N) stored -> fs w' = fs w).
Proof.
  intros replacements Hf Henc Habs.
  assert (E : replace_items (items replacements) (universal_newlines stored)
              = universal_newlines stored).
  { apply replace_items_absent.
    pose proof (replacements_keys_nonempty project_name package_name
                  github_org author_name author_email year) as Hne.
    pose proof (replacements_keys_line_end_free project_name package_name
                  github_org author_name author_email year) as Hle.
    fold replacements in Hne, Hle.
    revert Hne Hle Habs. generalize (List.map fst (items replacements)).
    induction 1 as [|old keys Hold _ IH]; intros Hle Habs; [constructor|].
    apply Forall_cons in Hle as [? ?]. apply Forall_cons in Habs as [? ?].
    constructor; [|auto]. split; [done|].
    by rewrite contains_universal_newlines. }
  pose proof (replace_in_file_regular w path replacements stored Hf) as R.
  cbv zeta in R. rewrite E in R.
  rewrite (encodable_universal_newlines stored Henc) in R.
  eexists. split; [exact R|]. simpl.
  split; [apply lookup_insert_eq|].
  split; [intros p Hp; by apply lookup_insert_ne|].
  split; [done|].
  intros Hcr. rewrite (universal_newlines_no_cr stored Hcr).
  by apply insert_id.
Qed.

Lemma file_without_tokens_unchanged_witness :
  let w :=
    World {[ "LICENSE"%string := Node (Some (lit "MIT License")) true ]}
      (lit "demo") 2026 [] [] in
  exists w',
    replace_in_file "LICENSE"
      (replacements_of (lit "Foo") (lit "bar") (lit "ethereum")
         (lit "Ethereum Foundation") (lit "security@ethereum.org")
         (lit "2026"))
      w
    = (Ok tt, w')
    /\ fs w' = fs w
    /\ stdout w' = [Updated "LICENSE"].
Proof.
  intros w.
  destruct (file_without_tokens_unchanged w "LICENSE" (lit "MIT License")
              (lit "Foo") (lit "bar") (lit "ethereum")
              (lit "Ethereum Foundation") (lit "security@ethereum.org")
              (lit "2026"))
    as (w' & E & _ & _ & O & F).
  - vm_compute. reflexivity.
  - reflexivity.
  - rewrite replacements_items. simpl. repeat constructor.
  - exists w'. split; [exact E|]. split; [|exact O].
    apply F. repeat constructor; discriminate.
Defined.

(** A file stored with CR LF line ends is written back with LF. *)
Example file_without_tokens_line_ends :
  let w :=
    World {[ "LICENSE"%string := Node (Some [77; 13; 10; 73; 13; 84]%N) true ]}
      (lit "demo") 2026 [] [] in
  fs (replace_in_file "LICENSE"
        (replacements_of (lit "Foo") (lit "bar") (lit "ethereum")
           (lit "Ethereum Foundation") (lit "security@ethereum.org")
           (lit "2026")) w).2 !! "LICENSE"%string
  = Some (Node (Some [77; 10; 73; 10; 84]%N) true).
Proof. vm_compute. reflexivity. Qed.

(** ** What a run can do to the files *)

Lemma fs_step_refl targets f : fs_step targets f f.
Proof. intros p. by left. Qed.

Lemma fs_step_trans targets f1 f2 f3 :
  fs_step targets f1 f2 -> fs_step targets f2 f3 -> fs_step targets f1 f3.
Proof.
  intros H12 H23 p. destruct (H12 p) as [E|(Hp & R1 & R2)];
    destruct (H23 p) as [E'|(Hp' & R2' & R3)].
  - left. congruence.
  - right. by rewrite <- E.
  - right. by rewrite E'.
  - by right.
Qed.

Lemma fs_step_mono targets targets' f f' :
  (forall p, In p targets -> In p targets') ->
  fs_step targets f f' -> fs_step targets' f f'.
Proof. intros Hsub H p. destruct (H p) as [E|(Hp & R)]; [by left|right; auto]. Qed.

Lemma rewritten_step f n :
  rewritten f n = n \/ (regular n /\ regular (rewritten f n)).
Proof.
  destruct n as [[[c|] [|]|]|]; simpl; auto.
  right. split; by eexists.
Qed.

Lemma rewrites_only_keeps_fs {A} targets (m : M A) :
  keeps_fs m -> rewrites_only targets m.
Proof. intros H w. rewrite H. apply fs_step_refl. Qed.

Lemma rewrites_only_bind {A B} targets (m : M A) (k : A -> M B) :
  rewrites_only targets m -> (forall a, rewrites_only targets (k a)) ->
  rewrites_only targets (bind m k).
Proof.
  intros Hm Hk w. unfold bind. specialize (Hm w).
  destruct (m w) as [[a|e] w1]; simpl in *; [|done].
  eapply fs_step_trans; [exact Hm|apply Hk].
Qed.

Lemma rewrites_only_try_except {A} targets (body : M A) handler :
  rewrites_only targets body ->
  (forall e h, handler e = Some h -> rewrites_only targets h) ->
  rewrites_only targets (try_except body handler).
Proof.
  intros Hb Hh w. unfold try_except. specialize (Hb w).
  destruct (body w) as [[a|e] w1]; simpl in *; [done|].
  destruct (handler e) as [h|] eqn:E; [|done].
  eapply fs_step_trans; [exact Hb|by apply (Hh e h)].
Qed.

Lemma rewrites_only_for_each {A} targets (xs : list A) (body : A -> M unit) :
  (forall x, In x xs -> rewrites_only targets (body x)) ->
  rewrites_only targets (for_each xs body).
Proof.
  induction xs as [|x xs IH]; intros H.
  - intros w. apply fs_step_refl.
  - cbn [for_each]. apply rewrites_only_bind.
    + apply H. by left.
    + intros _. apply IH. intros y Hy. apply H. by right.
Qed.

Lemma rewrites_only_process_file targets replacements path :
  In path targets ->
  rewrites_only targets
    (bind (path_exists path)
       (fun present =>
          if present then replace_in_file path replacements
          else print (FileNotFound path))).
Proof.
  intros Hp w p.
  destruct (accessible (fs w !! path)) eqn:Ha.
  - destruct (process_file_step replacements path w Ha)
      as (w' & E & _ & _ & F).
    rewrite E. simpl. rewrite F.
    destruct (decide (p = path)) as [->|]; [|by left].
    destruct (rewritten_step (replace_items (items replacements))
                (fs w !! path));
      [by left|by right].
  - rewrite (process_file_denied replacements path w Ha). by left.
Qed.

Lemma rewrites_only_repository_url_file targets config path :
  In path targets ->
  rewrites_only targets
    (bind (path_exists path)
       (fun present =>
          if present then
            bind (read_text path) (fun content =>
            bind (getitem config "github_org") (fun github_org =>
            bind (getitem config "package_name") (fun package_name =>
              write_text path
                (replace content (lit "<repository-url>")
                   (lit "https://github.com/" ++ github_org ++ lit "/"
                    ++ package_name)))))
          else ret tt)).
Proof.
  intros Hp w p.
  unfold bind, path_exists, read_text, write_text, getitem, ret, raise.
  destruct (fs w !! path) as [[[c|] [|]|]|] eqn:E; cbn beta iota;
    rewrite ?E; cbn beta iota; try (by left);
    destruct (config !! "github_org"%string); cbn beta iota; try (by left);
    destruct (config !! "package_name"%string); cbn beta iota; rewrite ?E;
    cbn beta iota; try (by left).
  destruct (encodable _); cbn [fs set_fs snd];
    (destruct (decide (p = path)) as [->|];
     [right; rewrite lookup_insert_eq, E; split; [done|]; split; by eexists
     |left; by rewrite lookup_insert_ne]).
Qed.

Lemma repository_url_files_targets p :
  In p repository_url_files -> In p files_to_update.
Proof. simpl. intuition. Qed.

Lemma rewrites_only_setup_project config :
  rewrites_only files_to_update (setup_project config).
Proof.
  unfold setup_project.
  repeat (apply rewrites_only_bind;
          [by apply rewrites_only_keeps_fs, keeps_fs_getitem|intros ?]).
  apply rewrites_only_bind.
  { apply rewrites_only_for_each. intros x Hx.
    by apply rewrites_only_process_file. }
  intros _. apply rewrites_only_bind.
  { apply rewrites_only_for_each. intros x Hx.
    by apply rewrites_only_repository_url_file, repository_url_files_targets. }
  intros _. apply rewrites_only_bind.
  - by apply rewrites_only_keeps_fs, keeps_fs_getitem.
  - intros ?. by apply rewrites_only_keeps_fs, keeps_fs_print.
Qed.

Lemma rewrites_only_main : rewrites_only files_to_update main.
Proof.
  assert (K : forall code m,
             rewrites_only files_to_update
               (bind (print m) (fun _ => @sys_exit unit code))).
  { intros. apply rewrites_only_keeps_fs, keeps_fs_bind;
      [apply keeps_fs_print|intros; apply keeps_fs_sys_exit]. }
  unfold main.
  apply rewrites_only_bind;
    [by apply rewrites_only_keeps_fs, keeps_fs_path_exists|intros present].
  apply rewrites_only_bind.
  { destruct (negb present); [apply K|].
    by apply rewrites_only_keeps_fs, keeps_fs_ret. }
  intros _. apply rewrites_only_bind;
    [by apply rewrites_only_keeps_fs, keeps_fs_read_text|intros content].
  apply rewrites_only_bind.
  { destruct (negb _); [apply K|].
    by apply rewrites_only_keeps_fs, keeps_fs_ret. }
  intros _. apply rewrites_only_try_except.
  - unfold main_try. apply rewrites_only_bind;
      [by apply rewrites_only_keeps_fs, keeps_fs_get_user_input|intros config].
    apply rewrites_only_bind;
      [by apply rewrites_only_keeps_fs, keeps_fs_print_summary|intros _].
    apply rewrites_only_bind;
      [by apply rewrites_only_keeps_fs, keeps_fs_input|intros answer].
    destruct (in_list _ _); [apply rewrites_only_setup_project|].
    by apply rewrites_only_keeps_fs, keeps_fs_print.
  - intros e h He. unfold main_except in He.
    destruct e; simpl in He; simplify_eq; apply K.
Qed.

(** X9.  Whatever the files and the answers, and however the run ends,
    [main] changes no path outside the seven target files, creates no
    file and removes none: a path holds something else afterwards only
    if it is a target file that could be read and written, and it
    still is one. *)
Theorem main_rewrites_only_targets (w : world) (p : string) :
  (fs (main w).2 !! p = fs w !! p
   \/ (In p files_to_update
       /\ regular (fs w !! p) /\ regular (fs (main w).2 !! p)))
  /\ (~ In p files_to_update -> fs (main w).2 !! p = fs w !! p)
  /\ (is_Some (fs (main w).2 !! p) <-> is_Some (fs w !! p)).
Proof.
  pose proof (rewrites_only_main w p) as H.
  split; [exact H|]. split.
  - intros Hp. by destruct H as [E|(? & _)].
  - destruct H as [E|(_ & [c1 E1] & [c2 E2])].
    + by rewrite E.
    + rewrite E1, E2. split; intros _; by eexists.
Qed.

(** ** Runs of [setup_project] to the end, and runs cut short *)

Lemma setup_project_effect
    config project_name package_name github_org author_name author_email year w :
  config !! "project_name"%string = Some project_name ->
  config !! "package_name"%string = Some package_name ->
  config !! "github_org"%string = Some github_org ->
  config !! "author_name"%string = Some author_name ->
  config !! "author_email"%string = Some author_email ->
  config !! "year"%string = Some year ->
  let f :=
    replace_items
      (items (replacements_of project_name package_name github_org
                author_name author_email year)) in
  let g := fun c =>
    replace c (lit "<repository-url>")
      (repository_url github_org package_name) in
  (forall p, In p files_to_update -> fs w !! p <> Some NoAccess) ->
  (forall p, In p repository_url_files ->
     succeeds g (rewritten f (fs w !! p)) = true) ->
  exists w',
    setup_project config w = (Ok tt, w')
    /\ stdin w' = stdin w
    /\ last (stdout w') = Some (SetupComplete project_name)
    /\ forall p,
         fs w' !! p
         = after_setup
             (replacements_of project_name package_name github_org
                author_name author_email year)
             (repository_url github_org package_name) (fs w) p.
Proof.
  intros H1 H2 H3 H4 H5 H6 f g Hacc Hok.
  set (replacements := replacements_of _ _ _ _ _ _) in *.
  destruct (process_each_file_effect replacements w)
    as (w1 & E1 & _ & I1 & F1).
  destruct (examined_all (fs w) files_to_update Hacc) as [Ea Ef].
  rewrite Ef in E1. rewrite Ea in F1.
  destruct (repository_url_pass config github_org package_name w1 H3 H2)
    as (w2 & E2 & _ & I2 & R1 & R2 & F2).
  fold g in E2, R1, R2.
  assert (N1 : fs w1 !! "README.md"%string
               = rewritten f (fs w !! "README.md"%string)).
  { rewrite F1. rewrite decide_True; [done|]. by compute_done. }
  assert (N2 : fs w1 !! "docs/index.md"%string
               = rewritten f (fs w !! "docs/index.md"%string)).
  { rewrite F1. rewrite decide_True; [done|]. by compute_done. }
  rewrite N1, N2 in E2, R2. rewrite N1 in R1.
  rewrite (Hok "README.md"%string) in E2, R2 by (simpl; tauto).
  rewrite (Hok "docs/index.md"%string) in E2 by (simpl; tauto).
  cbn [andb] in E2.
  exists (emit (SetupComplete project_name) w2).
  split; [|split; [|split]].
  - rewrite (setup_project_passes _ _ _ _ _ _ _ _ H1 H2 H3 H4 H5 H6).
    fold replacements.
    by rewrite (bind_ok _ _ _ _ _ E1), (bind_ok _ _ _ _ _ E2).
  - simpl. congruence.
  - simpl. apply last_snoc.
  - intros p. simpl. unfold after_setup, repository_url_files.
    fold f. fold g.
    destruct (decide (p = "README.md"%string)) as [->|Hp1].
    { rewrite R1. rewrite !decide_True; [done| |]; by compute_done. }
    destruct (decide (p = "docs/index.md"%string)) as [->|Hp2].
    { rewrite R2. rewrite !decide_True; [done| |]; by compute_done. }
    rewrite (F2 p Hp1 Hp2), F1.
    rewrite (decide_False (P := p ∈ [_; _])); [done|].
    intros [?|[?|?%elem_of_nil]%elem_of_cons]%elem_of_cons; done.
Qed.

(** X10.  A run to the end.  On a fresh template, with six answers and
    an affirmative seventh, when every target path can be examined and
    the second pass can rewrite [README.md] and [docs/index.md] (each
    is absent after the main pass, or readable and writable with a new
    text that can be encoded), [main] returns with status 0 after the
    closing message, having read exactly the seven answers.  Every
    target file that could be read and opened for writing holds its
    text, as read in text mode, with the map applied, or nothing if
    that text could not be encoded; the two documentation files have
    [<repository-url>] replaced after that; every other path holds
    what it held. *)
Theorem main_sets_up_template
    (w : world) (a1 a2 a3 a4 a5 a6 answer : str) (rest : list event) :
  unconfigured w ->
  stdin w
  = Line a1 :: Line a2 :: Line a3 :: Line a4 :: Line a5 :: Line a6
    :: Line answer :: rest ->
  in_list (lower (strip answer)) [ []; lit "y"; lit "yes" ] = true ->
  let project_name := py_or (strip a1) (cwd_name w) in
  let package_name := py_or (strip a2) (default_package_name project_name) in
  let github_org := py_or (strip a3) (lit "ethereum") in
  let author_name := py_or (strip a4) (lit "Ethereum Foundation") in
  let author_email := py_or (strip a5) (lit "security@ethereum.org") in
  let year := py_or (strip a6) (str_of_N (now_year w)) in
  let replacements :=
    replacements_of project_name package_name github_org
      author_name author_email year in
  let url := lit "https://github.com/" ++ github_org ++ lit "/" ++ package_name in
  (forall p, In p files_to_update -> fs w !! p <> Some NoAccess) ->
  (forall p, In p repository_url_files ->
     succeeds (fun c => replace c (lit "<repository-url>") url)
       (rewritten (replace_items (items replacements)) (fs w !! p)) = true) ->
  exists w',
    main w = (Ok tt, w')
    /\ exit_status (main w).1 = 0%Z
    /\ stdin w' = rest
    /\ last (stdout w') = Some (SetupComplete project_name)
    /\ forall p, fs w' !! p = after_setup replacements url (fs w) p.
Proof.
  intros Hu Hin Hyes project_name package_name github_org author_name
    author_email year replacements url Hacc Hok.
  destruct (config_of_lookups (cwd_name w) (now_year w) a1 a2 a3 a4 a5 a6)
    as (L1 & L2 & L3 & L4 & L5 & L6).
  set (config := config_of _ _ _ _ _ _ _ _) in *.
  destruct (setup_project_effect config _ _ _ _ _ _
              (emit ConfirmPrompt (before_confirmation w config a1 rest))
              L1 L2 L3 L4 L5 L6 Hacc Hok)
    as (w' & E & I & O & F).
  rewrite (accepted_confirmation_runs_setup w _ _ _ _ _ _ _ _ Hu Hin Hyes).
  fold config. unfold try_except. rewrite E. simpl.
  exists w'. repeat split; [exact I|exact O|exact F].
Qed.

Lemma main_sets_up_template_witness :
  let w := World template (lit "My Specs") 2026 (repeat (Line []) 7) [] in
  exists w',
    main w = (Ok tt, w')
    /\ fs w' !! "pyproject.toml"%string
       = Some (Node (Some (lit "name = 'my-specs'")) true)
    /\ fs w' !! "README.md"%string = None.
Proof.
  intros w.
  destruct (main_sets_up_template w [] [] [] [] [] [] [] [])
    as (w' & E & _ & _ & _ & F).
  - exists (lit "name = '{PACKAGE_NAME}'"), true.
    split; vm_compute; reflexivity.
  - reflexivity.
  - reflexivity.
  - intros p [<-|[<-|[<-|[<-|[<-|[<-|[<-|[]]]]]]]]; vm_compute; discriminate.
  - intros p [<-|[<-|[]]]; vm_compute; reflexivity.
  - exists w'. split; [exact E|].
    split; rewrite F; vm_compute; reflexivity.
Defined.

(** X11.  The second loop has no [try].  When every target path can
    be examined and [README.md] exists but cannot be read, or cannot
    be opened for writing, [setup_project] raises in that loop after
    the main pass has run to its end: the world is the one the main
    pass left, each target file that could be read and opened for
    writing already rewritten (or emptied, if its new text could not
    be encoded), [<repository-url>] replaced nowhere and no closing
    message.  Inside [main] the exception ends the process with
    status 1. *)
Theorem repository_url_failure_after_main_pass
    (w : world) (config : gmap string str) (d : option str) (wr : bool)
    (project_name package_name github_org author_name author_email year : str) :
  config !! "project_name"%string = Some project_name ->
  config !! "package_name"%string = Some package_name ->
  config !! "github_org"%string = Some github_org ->
  config !! "author_name"%string = Some author_name ->
  config !! "author_email"%string = Some author_email ->
  config !! "year"%string = Some year ->
  (forall p, In p files_to_update -> fs w !! p <> Some NoAccess) ->
  fs w !! "README.md"%string = Some (Node d wr) ->
  d = None \/ wr = false ->
  let replacements :=
    replacements_of project_name package_name github_org
      author_name author_email year in
  exists w1,
    process_each_file replacements w = (Ok tt, w1)
    /\ setup_project config w = (Raise IOFailure, w1)
    /\ try_except (setup_project config) main_except w
       = (Raise (SystemExit 1), emit (ErrorOccurred IOFailure) w1)
    /\ forall p,
         fs w1 !! p
         = if decide (p ∈ files_to_update)
           then rewritten (replace_items (items replacements)) (fs w !! p)
           else fs w !! p.
Proof.
  intros H1 H2 H3 H4 H5 H6 Hacc Hf Hbad replacements.
  destruct (process_each_file_effect replacements w)
    as (w1 & E1 & _ & _ & F1).
  destruct (examined_all (fs w) files_to_update Hacc) as [Ea Ef].
  rewrite Ef in E1. rewrite Ea in F1.
  assert (Hf1 : fs w1 !! "README.md"%string = Some (Node d wr)).
  { rewrite F1, Hf. destruct (decide _); [|done].
    by destruct Hbad as [->| ->]; [|destruct d]. }
  assert (E2 : update_repository_url config w1 = (Raise IOFailure, w1)).
  { unfold update_repository_url. cbn [for_each].
    apply bind_raise.
    rewrite (bind_ok _ _ w1 true w1)
      by (unfold path_exists; rewrite Hf1; reflexivity).
    cbn beta iota. destruct d as [c|].
    - rewrite (bind_ok _ _ w1 (universal_newlines c) w1)
        by (unfold read_text; rewrite Hf1; reflexivity).
      unfold getitem. rewrite H3, H2.
      rewrite (bind_ok _ _ w1 github_org w1) by reflexivity.
      rewrite (bind_ok _ _ w1 package_name w1) by reflexivity.
      unfold write_text. rewrite Hf1.
      destruct Hbad as [Hd|Hw]; [done|]. by rewrite Hw.
    - apply bind_raise. unfold read_text. by rewrite Hf1. }
  assert (E : setup_project config w = (Raise IOFailure, w1)).
  { rewrite (setup_project_passes _ _ _ _ _ _ _ _ H1 H2 H3 H4 H5 H6).
    fold replacements.
    by rewrite (bind_ok _ _ _ _ _ E1), (bind_raise _ _ _ _ _ E2). }
  exists w1. split; [exact E1|]. split; [exact E|]. split; [|exact F1].
  unfold try_except. by rewrite E.
Qed.

Lemma repository_url_failure_after_main_pass_witness :
  let w :=
    World (<["README.md"%string := Node (Some (lit "<repository-url>")) false]>
           (<["LICENSE"%string := Node (Some (lit "{YEAR}")) true]> ∅))
      (lit "demo") 2026 [] [] in
  let config := config_of (lit "demo") 2026 [] [] [] [] [] [] in
  exists w1,
    setup_project config w = (Raise IOFailure, w1)
    /\ fs w1 !! "LICENSE"%string = Some (Node (Some (lit "2026")) true)
    /\ fs w1 !! "README.md"%string
       = Some (Node (Some (lit "<repository-url>")) false).
Proof.
  intros w config.
  destruct (config_of_lookups (lit "demo") 2026 [] [] [] [] [] [])
    as (L1 & L2 & L3 & L4 & L5 & L6).
  destruct (repository_url_failure_after_main_pass w config
              (Some (lit "<repository-url>")) false _ _ _ _ _ _
              L1 L2 L3 L4 L5 L6)
    as (w1 & _ & E & _ & F).
  - intros p [<-|[<-|[<-|[<-|[<-|[<-|[<-|[]]]]]]]]; vm_compute; discriminate.
  - vm_compute. reflexivity.
  - right. reflexivity.
  - exists w1. split; [exact E|].
    split; rewrite F; vm_compute; reflexivity.
Defined.

(** ** The answers the confirmation accepts *)






Example affirmative_with_spaces_and_capitals :
  affirmative (lit "  YeS ") = true /\ affirmative (lit "yes!") = false
  /\ affirmative (lit "ok") = false /\ affirmative (lit "   ") = true.
Proof. repeat split. Qed.

(** ** What a run can raise *)

Lemma raises_only_weaken {A} (P Q : exn -> Prop) (m : M A) :
  (forall e, P e -> Q e) -> raises_only P m -> raises_only Q m.
Proof. intros HPQ H w e He. eapply HPQ, H, He. Qed.

Lemma raises_only_ret {A} P (a : A) : raises_only P (ret a).
Proof. intros w e. discriminate. Qed.

Lemma raises_only_print P m : raises_only P (print m).
Proof. intros w e. discriminate. Qed.

Lemma raises_only_path_exists (P : exn -> Prop) p :
  P IOFailure -> raises_only P (path_exists p).
Proof.
  intros H w e. unfold path_exists.
  destruct (fs w !! p) as [[]|]; simpl; first [discriminate|by intros [= <-]].
Qed.

Lemma raises_only_raise {A} (P : exn -> Prop) e : P e -> raises_only P (@raise A e).
Proof. intros H w e'. by intros [= <-]. Qed.

Lemma raises_only_getitem (P : exn -> Prop) config k :
  P (KeyError k) -> raises_only P (getitem config k).
Proof.
  intros H w e. unfold getitem.
  destruct (config !! k); simpl; [discriminate|by intros [= <-]].
Qed.

Lemma raises_only_read_text (P : exn -> Prop) p :
  P IOFailure -> raises_only P (read_text p).
Proof.
  intros H w e. unfold read_text.
  destruct (fs w !! p) as [[[c|] ?|]|]; simpl;
    first [discriminate|by intros [= <-]].
Qed.

Lemma raises_only_write_text (P : exn -> Prop) p c :
  P IOFailure -> raises_only P (write_text p c).
Proof.
  intros H w e. unfold write_text.
  destruct (fs w !! p) as [[? [|]|]|]; simpl;
    try destruct (encodable c); simpl;
    first [discriminate|by intros [= <-]].
Qed.

Lemma raises_only_input (P : exn -> Prop) m :
  P EOFError -> P KeyboardInterrupt -> raises_only P (input m).
Proof.
  intros H1 H2 w e. unfold input. simpl.
  destruct (stdin w) as [|[?|] ?]; simpl;
    first [discriminate|by intros [= <-]].
Qed.

Lemma raises_only_bind {A B} P (m : M A) (k : A -> M B) :
  raises_only P m -> (forall a, raises_only P (k a)) ->
  raises_only P (bind m k).
Proof.
  intros Hm Hk w e. unfold bind. specialize (Hm w).
  destruct (m w) as [[a|e'] w1]; simpl in *; [apply Hk|].
  intros [= <-]. by apply Hm.
Qed.

Lemma raises_only_for_each {A} P (xs : list A) (body : A -> M unit) :
  (forall x, raises_only P (body x)) -> raises_only P (for_each xs body).
Proof.
  intros H. induction xs as [|x xs IH]; [apply raises_only_ret|].
  cbn [for_each]. apply raises_only_bind; [apply H|by intros _].
Qed.

(** [replace_in_file] catches whatever its body raises. *)
Lemma replace_in_file_returns path replacements w :
  (replace_in_file path replacements w).1 = Ok tt.
Proof.
  unfold replace_in_file, try_except, bind, read_text, write_text, print.
  destruct (fs w !! path) as [[[c|] [|]|]|] eqn:F; cbn beta iota;
    rewrite ?F; cbn beta iota; try done.
  by destruct (encodable _).
Qed.

Lemma raises_only_setup_project (P : exn -> Prop) config :
  P IOFailure ->
  (forall k, In k config_keys -> raises_only P (getitem config k)) ->
  raises_only P (setup_project config).
Proof.
  intros HP K.
  assert (K' : forall k, In k config_keys ->
                 forall B (f : str -> M B),
                   (forall v, raises_only P (f v)) ->
                   raises_only P (bind (getitem config k) f)).
  { intros k Hk B f Hf. apply raises_only_bind; [by apply K|exact Hf]. }
  unfold setup_project.
  do 6 (apply K'; [simpl; tauto|intros ?]).
  apply raises_only_bind.
  { apply raises_only_for_each. intros x. apply raises_only_bind;
      [by apply raises_only_path_exists|].
    intros [|]; [|apply raises_only_print].
    intros w e He. by rewrite replace_in_file_returns in He. }
  intros _. apply raises_only_bind.
  { apply raises_only_for_each. intros x. apply raises_only_bind;
      [by apply raises_only_path_exists|].
    intros [|]; [|apply raises_only_ret].
    apply raises_only_bind; [by apply raises_only_read_text|intros ?].
    do 2 (apply K'; [simpl; tauto|intros ?]).
    by apply raises_only_write_text. }
  intros _. apply K'; [simpl; tauto|intros ?].
  apply raises_only_print.
Qed.

Lemma raises_only_getitem_present (P : exn -> Prop) config k :
  is_Some (config !! k) -> raises_only P (getitem config k).
Proof. intros [v Hv] w e. unfold getitem. rewrite Hv. discriminate. Qed.

Lemma answers_raise_None i :
  answers_raise 6 i = None ->
  exists a1 a2 a3 a4 a5 a6 rest,
    i = Line a1 :: Line a2 :: Line a3 :: Line a4 :: Line a5 :: Line a6 :: rest.
Proof.
  intros H.
  do 6 (destruct i as [|[?|] i]; try discriminate).
  by eexists _, _, _, _, _, _, _.
Qed.

Lemma get_user_input_Ok w config w' :
  get_user_input w = (Ok config, w') ->
  exists a1 a2 a3 a4 a5 a6,
    config = config_of (cwd_name w) (now_year w) a1 a2 a3 a4 a5 a6.
Proof.
  intros E. destruct (get_user_input_outcome w) as [H _].
  destruct (answers_raise 6 (stdin w)) as [e|] eqn:R.
  - rewrite E in H. discriminate.
  - apply answers_raise_None in R as (a1 & a2 & a3 & a4 & a5 & a6 & rest & Hin).
    rewrite (get_user_input_lines w _ _ _ _ _ _ _ Hin) in E.
    exists a1, a2, a3, a4, a5, a6. congruence.
Qed.

(** X16.  A configuration returned by [get_user_input] has the six keys
    and no other, so [setup_project] never raises [KeyError] on it:
    whatever the files, it returns or raises the error of a file
    access. *)
Theorem collected_config_has_all_keys
    (w w' : world) (config : gmap string str) :
  get_user_input w = (Ok config, w') ->
  (forall k, is_Some (config !! k) <-> In k config_keys)
  /\ forall w2,
       (setup_project config w2).1 = Ok tt
       \/ (setup_project config w2).1 = Raise IOFailure.
Proof.
  intros (a1 & a2 & a3 & a4 & a5 & a6 & ->)%get_user_input_Ok.
  destruct (config_of_lookups (cwd_name w) (now_year w) a1 a2 a3 a4 a5 a6)
    as (L1 & L2 & L3 & L4 & L5 & L6).
  set (config := config_of _ _ _ _ _ _ _ _) in *.
  assert (Hkeys : forall k, is_Some (config !! k) <-> In k config_keys).
  { intros k. split.
    - intros Hk. unfold config, config_of in Hk. cbv zeta in Hk.
      do 6 (apply lookup_insert_is_Some in Hk as [<-|[_ Hk]];
            [simpl; tauto|]).
      rewrite lookup_empty in Hk. by destruct Hk.
    - simpl. intros [<-|[<-|[<-|[<-|[<-|[<-|[]]]]]]]; by eexists. }
  split; [exact Hkeys|]. intros w2.
  assert (R : raises_only (fun e => e = IOFailure) (setup_project config)).
  { apply raises_only_setup_project; [done|]. intros k Hk.
    by apply raises_only_getitem_present, Hkeys. }
  destruct (setup_project config w2) as [[[]|e] w3] eqn:E; [by left|right].
  simpl. f_equal. apply (R w2). by rewrite E.
Qed.

Lemma collected_config_has_all_keys_witness :
  let w := World template (lit "demo") 2026 (repeat (Line []) 6) [] in
  let config := config_of (lit "demo") 2026 [] [] [] [] [] [] in
  (setup_project config w).1 = Ok tt
  \/ (setup_project config w).1 = Raise IOFailure.
Proof.
  intros w config.
  exact (proj2 (collected_config_has_all_keys w _ _
                  (get_user_input_lines w [] [] [] [] [] [] [] eq_refl)) w).
Defined.

Lemma raises_only_main_try : raises_only not_SystemExit main_try.
Proof.
  assert (I : forall m, raises_only not_SystemExit (input m)).
  { intros m. by apply raises_only_input. }
  assert (K : forall config k, raises_only not_SystemExit (getitem config k)).
  { intros config k. by apply raises_only_getitem. }
  unfold main_try.
  apply raises_only_bind.
  { unfold get_user_input.
    repeat first
      [ apply raises_only_bind; [|intros ?]
      | apply raises_only_print | apply I | apply K | apply raises_only_ret
      | intros w e; discriminate ]. }
  intros config. apply raises_only_bind.
  { unfold print_summary.
    repeat first
      [ apply raises_only_bind; [|intros ?]
      | apply raises_only_print | apply K ]. }
  intros _. apply raises_only_bind; [apply I|intros answer].
  destruct (in_list _ _); [|apply raises_only_print].
  apply raises_only_setup_project; [done|]. intros k _. apply K.
Qed.

(** X17.  Whatever the files and the answers, [main] ends the process
    with status 0 or status 1. *)
Theorem main_exit_status (w : world) :
  exit_status (main w).1 = 0%Z \/ exit_status (main w).1 = 1%Z.
Proof.
  unfold main, bind, path_exists, read_text.
  destruct (fs w !! "pyproject.toml"%string) as [[[c|] wr|]|] eqn:F;
    simpl; rewrite ?F; simpl; [|by right..].
  destruct (contains _ _); simpl; [|by right].
  unfold try_except.
  pose proof (raises_only_main_try w) as R.
  destruct (main_try w) as [[[]|e] w1]; simpl in *; [by left|].
  specialize (R e eq_refl).
  destruct e; simpl; try (by left); try (by right).
  by destruct (R code).
Qed.
